(** * Image-Change: the application state controller of [App.tsx]

    A shallow embedding of the three workflows of the React component
    [App] ([loadInitialImage], [handleImageUpload], [handleGenerate]) and of
    the two helpers they call ([fileToBase64], [urlToDataUrl]).

    - JavaScript strings are sequences of UTF-16 code units ([jsstring]).
    - The six [useState] cells are the fields of the record [AppState];
      a call of a setter is a command applied to that store, in program
      order.
    - An [async] function is a finite tree of commands and suspension points
      ([Task]); the promise awaited at a suspension point is settled by the
      environment, so every workflow is studied under every outcome of the
      browser and of the generation service. *)

From Stdlib Require Import List NArith ZArith Bool String Ascii Lia.
Import ListNotations.

Set Implicit Arguments.

(* ===================================================================== *)
(** ** JavaScript strings *)
(* ===================================================================== *)

Module JS.

(** A string is the list of its UTF-16 code units. *)
Definition jsstring := list N.

(** An ASCII literal of the source text. *)
Definition lit (s : string) : jsstring :=
  List.map N_of_ascii (list_ascii_of_string s).

Fixpoint eqb (a b : jsstring) : bool :=
  match a, b with
  | [], [] => true
  | x :: a', y :: b' => N.eqb x y && eqb a' b'
  | _, _ => false
  end.

(** [!s] on a string: only the empty string is falsy. *)
Definition is_empty (s : jsstring) : bool :=
  match s with [] => true | _ :: _ => false end.

(** ECMAScript WhiteSpace and LineTerminator code points, the ones
    [String.prototype.trim] removes. *)
Definition is_white_space (c : N) : bool :=
  (  N.eqb c 0x0009 || N.eqb c 0x000A || N.eqb c 0x000B || N.eqb c 0x000C
  || N.eqb c 0x000D || N.eqb c 0x0020 || N.eqb c 0x00A0 || N.eqb c 0x1680
  || (N.leb 0x2000 c && N.leb c 0x200A)
  || N.eqb c 0x2028 || N.eqb c 0x2029 || N.eqb c 0x202F || N.eqb c 0x205F
  || N.eqb c 0x3000 || N.eqb c 0xFEFF)%bool.

Fixpoint trimStart (s : jsstring) : jsstring :=
  match s with
  | [] => []
  | c :: s' => if is_white_space c then trimStart s' else s
  end.

Definition trimEnd (s : jsstring) : jsstring := rev (trimStart (rev s)).

(** [s.trim()] *)
Definition trim (s : jsstring) : jsstring := trimEnd (trimStart s).

(** [s.split(sep)] for a separator of one code unit; the result is never
    empty ([''.split(',')] is [['']]). *)
Fixpoint split (sep : N) (s : jsstring) : list jsstring :=
  match s with
  | [] => [[]]
  | c :: s' =>
      if N.eqb c sep then [] :: split sep s'
      else match split sep s' with
           | piece :: rest => (c :: piece) :: rest
           | [] => [[c]]
           end
  end.

(** [s.indexOf(ch)] for a search string of one code unit: the first
    position, or -1. *)
Fixpoint indexOf (ch : N) (s : jsstring) : Z :=
  match s with
  | [] => (-1)%Z
  | c :: s' =>
      if N.eqb c ch then 0%Z
      else let i := indexOf ch s' in
           if (i <? 0)%Z then (-1)%Z else (i + 1)%Z
  end.

(** [s.substring(a, b)]: both ends are clamped to [0, length] and swapped
    when out of order. *)
Definition substring (s : jsstring) (a b : Z) : jsstring :=
  let len := Z.of_nat (List.length s) in
  let a' := Z.min (Z.max a 0) len in
  let b' := Z.min (Z.max b 0) len in
  let from := Z.min a' b' in
  let to := Z.max a' b' in
  firstn (Z.to_nat (to - from)) (skipn (Z.to_nat from) s).

Definition comma : N := 44.
Definition colon : N := 58.
Definition semicolon : N := 59.

End JS.

Import JS.

(* ===================================================================== *)
(** ** Data model *)
(* ===================================================================== *)

(** [{ dataUrl: string; mimeType: string }] *)
Record ImageAsset : Type := mkImageAsset {
  dataUrl : jsstring;
  mimeType : jsstring
}.

(** The [useState] cells of [App]. *)
Record AppState : Type := mkAppState {
  originalImage : option ImageAsset;
  editedImage : option jsstring;
  prompt : jsstring;
  aspectRatio : jsstring;
  isLoading : bool;
  error : option jsstring
}.

(** Browser objects the helpers handle. *)
Record Blob : Type := mkBlob { blob_type : jsstring; blob_bytes : list N }.

Record File : Type := mkFile {
  file_name : jsstring;
  file_type : jsstring;
  file_bytes : list N
}.

Record Response : Type := mkResponse { ok : bool }.

(** [event.target.files] of a change event: a [FileList] or [null]. *)
Record ChangeEvent : Type := mkChangeEvent { files : option (list File) }.

(** A thrown value, or the reason of a rejected promise: an instance of
    [Error] with its [message], or any other value. *)
Inductive Thrown : Type :=
| ErrorInstance (message : jsstring)
| OtherValue (description : jsstring).

(** The promises a workflow awaits. [EditImageWithPrompt] is the call of
    [editImageWithPrompt] of [services/geminiService], the Generation
    Client; its first argument is [undefined] when [split(',')[1]] is. *)
Inductive Request : Type :=
| Fetch (url : jsstring)
| ResponseBlob (r : Response)
| ReadAsDataURL (f : File)
| EditImageWithPrompt (base64Data : option jsstring) (mime : jsstring)
                      (finalPrompt : jsstring).

Definition Reply (q : Request) : Type :=
  match q with
  | Fetch _ => Response
  | ResponseBlob _ => Blob
  | ReadAsDataURL _ => jsstring
  | EditImageWithPrompt _ _ _ => jsstring
  end.

Inductive Outcome (X : Type) : Type :=
| Resolved (x : X)
| Rejected (e : Thrown).

Arguments Rejected {X} e.

(** Synchronous effects: the state setters and [console.error]. *)
Inductive Cmd : Type :=
| SetOriginalImage (v : option ImageAsset)
| SetEditedImage (v : option jsstring)
| SetPrompt (v : jsstring)
| SetAspectRatio (v : jsstring)
| SetIsLoading (b : bool)
| SetError (v : option jsstring)
| ConsoleError (label : option jsstring) (e : Thrown).

Definition apply_cmd (c : Cmd) (s : AppState) : AppState :=
  match c with
  | SetOriginalImage v =>
      mkAppState v (editedImage s) (prompt s) (aspectRatio s) (isLoading s) (error s)
  | SetEditedImage v =>
      mkAppState (originalImage s) v (prompt s) (aspectRatio s) (isLoading s) (error s)
  | SetPrompt v =>
      mkAppState (originalImage s) (editedImage s) v (aspectRatio s) (isLoading s) (error s)
  | SetAspectRatio v =>
      mkAppState (originalImage s) (editedImage s) (prompt s) v (isLoading s) (error s)
  | SetIsLoading b =>
      mkAppState (originalImage s) (editedImage s) (prompt s) (aspectRatio s) b (error s)
  | SetError v =>
      mkAppState (originalImage s) (editedImage s) (prompt s) (aspectRatio s) (isLoading s) v
  | ConsoleError _ _ => s
  end.

(* ===================================================================== *)
(** ** Asynchronous functions *)
(* ===================================================================== *)

(** The body of an [async] function: it returns, throws, performs a
    synchronous effect, or awaits a promise and goes on with its outcome. *)
Inductive Task (R : Type) : Type :=
| Ret (r : R)
| Throw (e : Thrown)
| Do (c : Cmd) (k : Task R)
| Await (q : Request) (k : Outcome (Reply q) -> Task R).

Arguments Throw {R} e.
Arguments Do {R} c k.
Arguments Await {R} q k.

Fixpoint bind {A B : Type} (t : Task A) (f : A -> Task B) : Task B :=
  match t with
  | Ret a => f a
  | Throw e => Throw e
  | Do c k => Do c (bind k f)
  | Await q k => Await q (fun o => bind (k o) f)
  end.

Declare Scope task_scope.
Delimit Scope task_scope with task.
Notation "x <- t ;; k" := (bind t (fun x => k))
  (at level 100, t at next level, right associativity) : task_scope.
Notation "t ;; k" := (bind t (fun _ => k))
  (at level 100, right associativity) : task_scope.
Open Scope task_scope.

(** A statement [setX(v);] or [console.error(...)]. *)
Definition exec (c : Cmd) : Task unit := Do c (Ret tt).

(** [await p]: the value of a fulfilled promise, a throw of the reason of a
    rejected one. *)
Definition await (q : Request) : Task (Reply q) :=
  Await q (fun o => match o with
                    | Resolved x => Ret x
                    | Rejected e => Throw e
                    end).

(** [try { body } catch (e) { handler }] *)
Fixpoint tryCatch {R : Type} (body : Task R) (handler : Thrown -> Task R) : Task R :=
  match body with
  | Ret r => Ret r
  | Throw e => handler e
  | Do c k => Do c (tryCatch k handler)
  | Await q k => Await q (fun o => tryCatch (k o) handler)
  end.

(** [try { body } finally { finalizer }]: the finalizer runs on both exits
    and the completion of the body is kept. *)
Fixpoint tryFinally {R : Type} (body : Task R) (finalizer : Task unit) : Task R :=
  match body with
  | Ret r => finalizer ;; Ret r
  | Throw e => finalizer ;; Throw e
  | Do c k => Do c (tryFinally k finalizer)
  | Await q k => Await q (fun o => tryFinally (k o) finalizer)
  end.

Definition tryCatchFinally {R : Type} (body : Task R)
    (handler : Thrown -> Task R) (finalizer : Task unit) : Task R :=
  tryFinally (tryCatch body handler) finalizer.

(** *** Running a task *)

(** The environment settles every awaited promise. *)
Definition Env : Type := forall q : Request, Outcome (Reply q).

Inductive Event : Type :=
| Did (c : Cmd)
| Called (q : Request).

Inductive Completion (R : Type) : Type :=
| Returned (r : R)
| Uncaught (e : Thrown).

Arguments Uncaught {R} e.

Record Run (R : Type) : Type := mkRun {
  final : AppState;
  trace : list Event;
  completion : Completion R
}.

Fixpoint run {R : Type} (env : Env) (t : Task R) (s : AppState) : Run R :=
  match t with
  | Ret r => mkRun s [] (Returned r)
  | Throw e => mkRun s [] (Uncaught e)
  | Do c k =>
      let r := run env k (apply_cmd c s) in
      mkRun (final r) (Did c :: trace r) (completion r)
  | Await q k =>
      let r := run env (k (env q)) s in
      mkRun (final r) (Called q :: trace r) (completion r)
  end.

(** Where a task stands when control first goes back to the event loop. *)
Inductive Status : Type :=
| Finished
| Raised (e : Thrown)
| Awaiting (q : Request).

(** The synchronous prefix of a task: the store and the status at its first
    suspension point (or at its end when it has none). *)
Fixpoint until_await {R : Type} (t : Task R) (s : AppState) : AppState * Status :=
  match t with
  | Ret _ => (s, Finished)
  | Throw e => (s, Raised e)
  | Do c k => until_await k (apply_cmd c s)
  | Await q _ => (s, Awaiting q)
  end.

(** The calls of the Generation Client in a trace. *)
Definition is_generation_call (ev : Event) : bool :=
  match ev with
  | Called (EditImageWithPrompt _ _ _) => true
  | _ => false
  end.

Definition generation_calls (tr : list Event) : list Event :=
  filter is_generation_call tr.

(* ===================================================================== *)
(** ** The program: [App.tsx] *)
(* ===================================================================== *)

(** [fileToBase64]: the promise settles with the [FileReader]; on load the
    MIME type is cut out of the result between its first [':'] and its
    first [';']. *)
Definition fileToBase64 (file : File) : Task ImageAsset :=
  result <- await (ReadAsDataURL file) ;;
  let mimeType :=
    substring result (indexOf colon result + 1) (indexOf semicolon result) in
  Ret (mkImageAsset result mimeType).

Definition urlToDataUrl (url : jsstring) : Task ImageAsset :=
  response <- await (Fetch url) ;;
  if negb (ok response)
  then Throw (ErrorInstance (lit "Failed to fetch image from " ++ url))
  else
    blob <- await (ResponseBlob response) ;;
    let file :=
      mkFile (lit "initial-image.jpeg") (blob_type blob) (blob_bytes blob) in
    fileToBase64 file.

Definition defaultPrompt : jsstring :=
  lit "Replace the background of the image without altering the product or its packaging. Place the product centered on a wooden countertop or table, as if it is resting naturally on it. The new background should be a softly blurred warehouse or stockroom environment, with warm, realistic lighting and depth of field. Do not modify, crop, or distort the product or its packaging "
  ++ [0x2014%N]
  ++ lit " keep colors, proportions, and textures exactly as in the original image. Ensure the product and packaging are sharp and in focus, while the background remains softly blurred. Maintain a professional, clean, and realistic photographic look suitable for e-commerce product display.".

(** The store of the first render. *)
Definition initialState : AppState :=
  mkAppState None None defaultPrompt (lit "original") true None.

Definition initialImageUrl : jsstring := lit "https://i.imgur.com/gK6nJ4P.jpeg".

(** The [key]s of [aspectOptions], the only values the aspect-ratio buttons
    store. *)
Definition aspectOptions : list jsstring :=
  [lit "original"; lit "1:1"; lit "9:16"; lit "4:5"].

Definition loadInitialImage : Task unit :=
  tryCatchFinally
    (exec (SetError None) ;;
     exec (SetIsLoading true) ;;
     imageData <- urlToDataUrl initialImageUrl ;;
     exec (SetOriginalImage (Some imageData)))
    (fun e =>
       exec (ConsoleError (Some (lit "Failed to load initial image:")) e) ;;
       exec (SetError (Some (lit "Could not load the initial example image. Please try uploading your own."))))
    (exec (SetIsLoading false)).

(** [event.target.files?.[0]] *)
Definition selectedFile (event : ChangeEvent) : option File :=
  match files event with
  | None => None
  | Some fileList => nth_error fileList 0
  end.

Definition handleImageUpload (event : ChangeEvent) : Task unit :=
  match selectedFile event with
  | Some file =>
      tryCatchFinally
        (exec (SetIsLoading true) ;;
         exec (SetError None) ;;
         exec (SetEditedImage None) ;;
         image <- fileToBase64 file ;;
         exec (SetOriginalImage (Some (mkImageAsset (dataUrl image) (mimeType image)))))
        (fun e =>
           exec (SetError (Some (lit "Failed to read the image file."))) ;;
           exec (ConsoleError None e))
        (exec (SetIsLoading false))
  | None => Ret tt
  end.

(** The local [finalPrompt] of [handleGenerate]. *)
Definition finalPrompt (prompt aspectRatio : jsstring) : jsstring :=
  if negb (eqb aspectRatio (lit "original"))
  then trim prompt
       ++ lit " Please ensure the final image composition is suitable for a "
       ++ aspectRatio ++ lit " aspect ratio."
  else prompt.

(** The local [base64Data] of [handleGenerate]:
    [originalImage.dataUrl.split(',')[1]]. *)
Definition base64Data (originalImage : ImageAsset) : option jsstring :=
  nth_error (split comma (dataUrl originalImage)) 1.

(** The local [errorMessage] of the [catch] block of [handleGenerate]. *)
Definition errorMessage (e : Thrown) : jsstring :=
  match e with
  | ErrorInstance message => message
  | OtherValue _ => lit "An unknown error occurred."
  end.

(** The handler reads the store of the render it was created in, [s]. *)
Definition handleGenerate (s : AppState) : Task unit :=
  match originalImage s, is_empty (prompt s) with
  | Some image, false =>
      exec (SetIsLoading true) ;;
      exec (SetError None) ;;
      exec (SetEditedImage None) ;;
      tryCatchFinally
        (newImageBase64 <-
           await (EditImageWithPrompt (base64Data image) (mimeType image)
                    (finalPrompt (prompt s) (aspectRatio s))) ;;
         exec (SetEditedImage (Some (lit "data:image/png;base64," ++ newImageBase64))))
        (fun e =>
           exec (SetError (Some (lit "Generation failed: " ++ errorMessage e))) ;;
           exec (ConsoleError None e))
        (exec (SetIsLoading false))
  | _, _ =>
      exec (SetError (Some (lit "Please upload an image and provide a prompt.")))
  end.

(** The [disabled] attribute of the Generate button. *)
Definition generateDisabled (s : AppState) : bool :=
  isLoading s
  || match originalImage s with None => true | Some _ => false end
  || is_empty (prompt s).

(** *** Reading a trace *)

(** The first argument of every call of the Generation Client, in order. *)
Fixpoint sent_payloads (tr : list Event) : list (option jsstring) :=
  match tr with
  | [] => []
  | Called (EditImageWithPrompt d _ _) :: tr' => d :: sent_payloads tr'
  | _ :: tr' => sent_payloads tr'
  end.

(** The prompt argument of every call of the Generation Client, in order. *)
Fixpoint sent_prompts (tr : list Event) : list jsstring :=
  match tr with
  | [] => []
  | Called (EditImageWithPrompt _ _ p) :: tr' => p :: sent_prompts tr'
  | _ :: tr' => sent_prompts tr'
  end.

(** The store after a list of commands. *)
Definition apply_all (cs : list Cmd) (s : AppState) : AppState :=
  fold_left (fun st c => apply_cmd c st) cs s.

(** *** Words of the specification *)

Module SpecWords.

(** "The entire substring of the data URL after its first comma": nothing
    when the string holds no comma. *)
Fixpoint after_first (sep : N) (s : jsstring) : option jsstring :=
  match s with
  | [] => None
  | c :: s' => if N.eqb c sep then Some s' else after_first sep s'
  end.

(** The part of a string before its first separator, the whole string when
    it holds none. *)
Fixpoint up_to (sep : N) (s : jsstring) : jsstring :=
  match s with
  | [] => []
  | c :: s' => if N.eqb c sep then [] else c :: up_to sep s'
  end.

(** How often a code unit occurs in a string. *)
Fixpoint occurrences (sep : N) (s : jsstring) : nat :=
  match s with
  | [] => 0
  | c :: s' => (if N.eqb c sep then 1 else 0) + occurrences sep s'
  end.

End SpecWords.

Import SpecWords.

(** *** Environments used in the examples *)

(** Every promise is fulfilled; the generation service answers ["Zm9v"]. *)
Definition env_fulfilled : Env := fun q =>
  match q return Outcome (Reply q) with
  | Fetch _ => Resolved (mkResponse true)
  | ResponseBlob _ => Resolved (mkBlob (lit "image/jpeg") [255; 216; 255]%N)
  | ReadAsDataURL _ => Resolved (lit "data:image/jpeg;base64,/9j/")
  | EditImageWithPrompt _ _ _ => Resolved (lit "Zm9v")
  end.

(** Every promise is rejected, with an [Error] for the network and the
    generation service and with a progress event for the file reader. *)
Definition env_rejected : Env := fun q =>
  match q return Outcome (Reply q) with
  | Fetch _ => Rejected (ErrorInstance (lit "Failed to fetch"))
  | ResponseBlob _ => Rejected (ErrorInstance (lit "body stream already read"))
  | ReadAsDataURL _ => Rejected (OtherValue (lit "[object ProgressEvent]"))
  | EditImageWithPrompt _ _ _ => Rejected (ErrorInstance (lit "quota exceeded"))
  end.

(** The generation service throws a value that is no [Error]. *)
Definition env_thrown_string : Env := fun q =>
  match q return Outcome (Reply q) with
  | EditImageWithPrompt _ _ _ => Rejected (OtherValue (lit "quota exceeded"))
  | q' => env_fulfilled q'
  end.

(** The server answers the fetch with a status outside 200-299. *)
Definition env_not_ok : Env := fun q =>
  match q return Outcome (Reply q) with
  | Fetch _ => Resolved (mkResponse false)
  | q' => env_fulfilled q'
  end.

(** The reader is given an empty file of unknown type: the data URL is
    "data:" and nothing more. *)
Definition env_empty_file : Env := fun q =>
  match q return Outcome (Reply q) with
  | ReadAsDataURL _ => Resolved (lit "data:")
  | q' => env_fulfilled q'
  end.

Definition pngImage : ImageAsset :=
  mkImageAsset (lit "data:image/png;base64,QUJD") (lit "image/png").

(** A data URL whose MIME segment carries a parameter with a comma in it. *)
Definition twoCommaImage : ImageAsset :=
  mkImageAsset (lit "data:image/png;tags=a,b;base64,QUJD") (lit "image/png").

(** A store ready for generation: an image, a prompt with blanks around it,
    a former result and a former error on display. *)
Definition readyState (image : ImageAsset) (aspect : jsstring) : AppState :=
  mkAppState (Some image) (Some (lit "data:image/png;base64,b2xk"))
             (lit "  a marble countertop ") aspect false
             (Some (lit "Generation failed: earlier")).

Definition pngFile : File := mkFile (lit "shoe.png") (lit "image/png") [137; 80; 78; 71]%N.

(** *** Properties of a workflow *)

(** The initial load fails at the fetch: the promise is rejected, or the
    response is not [ok]. *)
Definition fetch_fails (env : Env) : Prop :=
  (exists e, env (Fetch initialImageUrl) = Rejected e) \/
  (exists response,
      env (Fetch initialImageUrl) = Resolved response /\ ok response = false).

(** The common shape of the workflows: when the task is suspended on its
    first promise [q] the error is cleared and the loading flag is up; when
    the task is over, under the environment [env], the flag is down and
    nothing was left uncaught. *)
Definition brackets_loading (env : Env) (t : Task unit) (s : AppState)
    (q : Request) : Prop :=
  (exists s1, until_await t s = (s1, Awaiting q) /\
              error s1 = None /\ isLoading s1 = true) /\
  isLoading (final (run env t s)) = false /\
  completion (run env t s) = Returned tt.

(** The edited image is cleared when the task is suspended on [q]. *)
Definition clears_edited_before (t : Task unit) (s : AppState) (q : Request) : Prop :=
  exists s1, until_await t s = (s1, Awaiting q) /\ editedImage s1 = None.

(** *** The rendered page *)

(** [v && ...] in JSX: [null] and the empty string render nothing. *)
Definition truthy (v : option jsstring) : bool :=
  match v with
  | Some text => negb (is_empty text)
  | None => false
  end.

(** The box under "Original Image". *)
Inductive OriginalPanel : Type :=
| OriginalPicture (src : jsstring)
| OriginalSpinner
| OriginalHint (text : jsstring).

(** The box under "Edited Image". *)
Inductive EditedPanel : Type :=
| EditedSpinner (text : jsstring)
| EditedPicture (src : jsstring)
| EditedPlaceholder (text : jsstring).

(** What the JSX of [App] shows for a store: the state of the Generate
    button, the error banner, the two picture boxes, the download link
    ([href], [download]) and, for every aspect-ratio button, its key and
    whether it is highlighted. *)
Record View : Type := mkView {
  generate_disabled : bool;
  generate_label : jsstring;
  error_banner : option jsstring;
  original_panel : OriginalPanel;
  download_link : option (jsstring * jsstring);
  edited_panel : EditedPanel;
  aspect_buttons : list (jsstring * bool)
}.

Definition render (s : AppState) : View :=
  mkView
    (generateDisabled s)
    (if isLoading s then lit "Generating..." else lit "Generate Image")
    (if truthy (error s) then error s else None)
    (match originalImage s with
     | Some image => OriginalPicture (dataUrl image)
     | None =>
         if isLoading s then OriginalSpinner
         else OriginalHint (lit "Upload an image to start")
     end)
    (match editedImage s with
     | Some url => if is_empty url then None else Some (url, lit "edited-image.png")
     | None => None
     end)
    (if isLoading s && negb (truthy (editedImage s))
     then EditedSpinner (lit "Generating new background...")
     else match editedImage s with
          | Some url =>
              if is_empty url
              then EditedPlaceholder (lit "Your generated image will appear here.")
              else EditedPicture url
          | None => EditedPlaceholder (lit "Your generated image will appear here.")
          end)
    (List.map (fun key => (key, eqb (aspectRatio s) key)) aspectOptions).

(** *** Sessions *)

(** What can happen to the page: the effect of the first render, a change
    of the file input, a click on Generate, typing in the prompt box, a
    click on the aspect-ratio button number [index]. *)
Inductive UIEvent : Type :=
| Mount
| ChangeFile (event : ChangeEvent)
| ClickGenerate
| TypePrompt (value : jsstring)
| ClickAspect (index : nat).

(** The code an event runs on the store [s] of the current render. A
    disabled button fires no click; there is a button for each entry of
    [aspectOptions] and no other. *)
Definition handle (ev : UIEvent) (s : AppState) : Task unit :=
  match ev with
  | Mount => loadInitialImage
  | ChangeFile event => handleImageUpload event
  | ClickGenerate => if generateDisabled s then Ret tt else handleGenerate s
  | TypePrompt value => exec (SetPrompt value)
  | ClickAspect index =>
      match nth_error aspectOptions index with
      | Some key => exec (SetAspectRatio key)
      | None => Ret tt
      end
  end.

(** One event, run to its end under the environment [env]. *)
Definition step (s : AppState) (ev : Env * UIEvent) : AppState :=
  final (run (fst ev) (handle (snd ev) s) s).

(** A session: events handled one after the other, each under its own
    environment, from the store of the first render. *)
Definition session (evs : list (Env * UIEvent)) : AppState :=
  fold_left step evs initialState.

(** The shape of the values the workflows store. *)
Definition error_well_formed (e : option jsstring) : Prop :=
  match e with
  | None => True
  | Some message => message <> []
  end.

Definition edited_well_formed (v : option jsstring) : Prop :=
  match v with
  | None => True
  | Some url => exists b, url = lit "data:image/png;base64," ++ b
  end.

Definition well_formed (s : AppState) : Prop :=
  In (aspectRatio s) aspectOptions /\
  error_well_formed (error s) /\
  edited_well_formed (editedImage s).

(** A command that can only store values of that shape. *)
Definition cmd_safe (c : Cmd) : Prop :=
  match c with
  | SetError v => error_well_formed v
  | SetEditedImage v => edited_well_formed v
  | SetAspectRatio key => In key aspectOptions
  | _ => True
  end.

(** The data URL the file reader builds for a MIME type and a base64
    text. *)
Definition base64DataUrl (mime payload : jsstring) : jsstring :=
  lit "data:" ++ mime ++ lit ";base64," ++ payload.

(** *** A workflow among other handlers *)

(** The page never blocks its inputs while a promise is pending: between
    the suspension of a task on the promise [q] and its resumption, other
    handlers may run. An interference tells what they do to the store in
    that interval; any function of the store is allowed. *)
Definition Interference : Type := Request -> AppState -> AppState.

(** [run] with other handlers at work: the task resumes in the store they
    left. *)
Fixpoint run_among {R : Type} (env : Env) (others : Interference) (t : Task R)
    (s : AppState) : Run R :=
  match t with
  | Ret r => mkRun s [] (Returned r)
  | Throw e => mkRun s [] (Uncaught e)
  | Do c k =>
      let r := run_among env others k (apply_cmd c s) in
      mkRun (final r) (Did c :: trace r) (completion r)
  | Await q k =>
      let r := run_among env others (k (env q)) (others q s) in
      mkRun (final r) (Called q :: trace r) (completion r)
  end.

(** No other handler runs. *)
Definition nothing_else : Interference := fun _ st => st.

(** A whole upload that fails, from its first setter to its last. *)
Definition meanwhile_failed_upload : Interference := fun _ st =>
  apply_all [SetIsLoading true; SetError None; SetEditedImage None;
             SetError (Some (lit "Failed to read the image file."));
             ConsoleError None (OtherValue (lit "[object ProgressEvent]"));
             SetIsLoading false] st.

(** The end of a generation that was pending: its answer is stored. *)
Definition meanwhile_generation_answered : Interference := fun _ st =>
  apply_all [SetEditedImage (Some (lit "data:image/png;base64,Zm9v"));
             SetIsLoading false] st.

(** [url] was generated in the session [evs]: one of its events is a click
    on Generate, in a store with an original image, the environment of that
    event answered [b] to the call the click made, and [url] is the PNG data
    URL of [b]. *)
Definition generated_in (evs : list (Env * UIEvent)) (url : jsstring) : Prop :=
  exists before env after image b,
    evs = before ++ (env, ClickGenerate) :: after /\
    originalImage (session before) = Some image /\
    env (EditImageWithPrompt (base64Data image) (mimeType image)
           (finalPrompt (prompt (session before)) (aspectRatio (session before))))
    = Resolved b /\
    url = lit "data:image/png;base64," ++ b.

Definition edited_from (evs : list (Env * UIEvent)) (v : option jsstring) : Prop :=
  match v with
  | None => True
  | Some url => generated_in evs url
  end.

(* ===================================================================== *)
(** ** Strings: basic facts *)
(* ===================================================================== *)

Section StringFacts.

Lemma eqb_refl (a : jsstring) : eqb a a = true.
Proof.
  induction a as [|x a IH]; simpl; [reflexivity|].
  now rewrite N.eqb_refl, IH.
Qed.

Lemma eqb_eq (a b : jsstring) : eqb a b = true <-> a = b.
Proof.
  split; [|intros ->; apply eqb_refl].
  revert b; induction a as [|x a IH]; intros [|y b]; simpl; try discriminate.
  - reflexivity.
  - intros H. apply andb_prop in H as [Hx Hab].
    apply N.eqb_eq in Hx. f_equal; auto.
Qed.

Lemma eqb_neq (a b : jsstring) : eqb a b = false <-> a <> b.
Proof.
  rewrite <- eqb_eq. destruct (eqb a b); split; congruence.
Qed.

Lemma is_empty_false (s : jsstring) : is_empty s = false <-> s <> [].
Proof. destruct s; simpl; split; congruence. Qed.

Lemma is_empty_true (s : jsstring) : is_empty s = true <-> s = [].
Proof. destruct s; simpl; split; congruence. Qed.

(** What [trimStart] leaves does not begin with white space. *)
Lemma trimStart_head (s : jsstring) (c : N) (rest : jsstring) :
  trimStart s = c :: rest -> is_white_space c = false.
Proof.
  induction s as [|x s IH]; simpl; [discriminate|].
  destruct (is_white_space x) eqn:Hx; [exact IH|].
  intros H; injection H as -> _; exact Hx.
Qed.

(** [trimStart] only removes: its result is a suffix of its argument. *)
Lemma trimStart_suffix (s : jsstring) :
  exists blanks, s = blanks ++ trimStart s /\ forallb is_white_space blanks = true.
Proof.
  induction s as [|x s (blanks & Heq & Hb)]; simpl.
  - exists []; split; reflexivity.
  - destruct (is_white_space x) eqn:Hx.
    + exists (x :: blanks); simpl; rewrite Hx, Hb; split; [congruence|reflexivity].
    + exists []; split; reflexivity.
Qed.

(** A string with no white space at either end is its own [trim]. *)
Lemma trimStart_fixed (c : N) (s : jsstring) :
  is_white_space c = false -> trimStart (c :: s) = c :: s.
Proof. intros H; simpl; now rewrite H. Qed.

(** *** [split] against the words of the specification *)

Lemma split_cons (sep : N) (s : jsstring) :
  split sep s =
  up_to sep s :: match after_first sep s with
                 | Some rest => split sep rest
                 | None => []
                 end.
Proof.
  induction s as [|c s IH]; simpl; [reflexivity|].
  destruct (N.eqb c sep); [reflexivity|].
  rewrite IH. reflexivity.
Qed.

(** [s.split(sep)[1]] is the piece between the first and the second
    separator; it is [undefined] when [s] holds no separator. *)
Lemma split_second (sep : N) (s : jsstring) :
  nth_error (split sep s) 1 = option_map (up_to sep) (after_first sep s).
Proof.
  rewrite split_cons. simpl.
  destruct (after_first sep s) as [rest|]; simpl; [|reflexivity].
  now rewrite split_cons.
Qed.

Lemma up_to_none (sep : N) (s : jsstring) :
  occurrences sep s = 0 -> up_to sep s = s.
Proof.
  induction s as [|c s IH]; simpl; [reflexivity|].
  destruct (N.eqb c sep); simpl; [discriminate|].
  intros H; f_equal; auto.
Qed.

Lemma occurrences_after_first (sep : N) (s rest : jsstring) :
  after_first sep s = Some rest -> occurrences sep s = S (occurrences sep rest).
Proof.
  induction s as [|c s IH]; simpl; [discriminate|].
  destruct (N.eqb c sep); simpl.
  - intros H; injection H as ->; reflexivity.
  - exact IH.
Qed.

Lemma after_first_none (sep : N) (s : jsstring) :
  after_first sep s = None <-> occurrences sep s = 0.
Proof.
  induction s as [|c s IH]; simpl; [tauto|].
  destruct (N.eqb c sep); simpl; [split; discriminate|exact IH].
Qed.

(** With at most one separator the second piece is everything after it. *)
Lemma split_second_single (sep : N) (s : jsstring) :
  occurrences sep s <= 1 ->
  nth_error (split sep s) 1 = after_first sep s.
Proof.
  intros Hle. rewrite split_second.
  destruct (after_first sep s) as [rest|] eqn:Hrest; simpl; [|reflexivity].
  apply occurrences_after_first in Hrest.
  rewrite up_to_none; [reflexivity|lia].
Qed.

(** With a second separator the second piece is strictly shorter than the
    rest of the string. *)
Lemma up_to_length (sep : N) (s : jsstring) :
  0 < occurrences sep s -> List.length (up_to sep s) < List.length s.
Proof.
  induction s as [|c s IH]; simpl; [lia|].
  destruct (N.eqb c sep); simpl; [lia|].
  intros H; apply IH in H; lia.
Qed.

End StringFacts.

(* ===================================================================== *)
(** ** Tasks: general facts *)
(* ===================================================================== *)

Section TaskFacts.

Context {R : Type}.

Lemma bind_ret_l {A : Type} (a : A) (f : A -> Task R) : bind (Ret a) f = f a.
Proof. reflexivity. Qed.

(** Running a sequence is running its parts in turn. *)
Lemma run_bind {A : Type} (env : Env) (t : Task A) (f : A -> Task R) (s : AppState) :
  run env (bind t f) s =
  let r1 := run env t s in
  match completion r1 with
  | Returned a =>
      let r2 := run env (f a) (final r1) in
      mkRun (final r2) (trace r1 ++ trace r2) (completion r2)
  | Uncaught e => mkRun (final r1) (trace r1) (Uncaught e)
  end.
Proof.
  revert s; induction t as [a|e|c k IH|q k IH]; intros s; simpl.
  - now destruct (run env (f a) s).
  - reflexivity.
  - rewrite IH; simpl. now destruct (completion (run env k (apply_cmd c s))).
  - rewrite IH; simpl. now destruct (completion (run env (k (env q)) s)).
Qed.

(** A handler that returns leaves nothing uncaught. *)
Lemma tryCatch_returns (env : Env) (body : Task R) (handler : Thrown -> Task R) :
  (forall e s, exists r, completion (run env (handler e) s) = Returned r) ->
  forall s, exists r, completion (run env (tryCatch body handler) s) = Returned r.
Proof.
  intros Hh. induction body as [r|e|c k IH|q k IH]; intros s; simpl.
  - now exists r.
  - apply Hh.
  - apply IH.
  - apply IH.
Qed.

(** The store after [try ... finally] is the store the finalizer leaves
    when it starts where the body stopped. *)
Lemma run_tryFinally_final (env : Env) (body : Task R) (finalizer : Task unit) (s : AppState) :
  final (run env (tryFinally body finalizer) s) =
  final (run env finalizer (final (run env body s))).
Proof.
  revert s; induction body as [r|e|c k IH|q k IH]; intros s; simpl.
  - rewrite run_bind; simpl.
    now destruct (completion (run env finalizer s)).
  - rewrite run_bind; simpl.
    now destruct (completion (run env finalizer s)).
  - apply IH.
  - apply IH.
Qed.

(** The trace of [try ... finally]: the body, then the finalizer. *)
Lemma run_tryFinally_trace (env : Env) (body : Task R) (finalizer : Task unit) (s : AppState) :
  trace (run env (tryFinally body finalizer) s) =
  trace (run env body s) ++ trace (run env finalizer (final (run env body s))).
Proof.
  revert s; induction body as [r|e|c k IH|q k IH]; intros s; simpl.
  - rewrite run_bind; simpl.
    destruct (completion (run env finalizer s)); simpl; now rewrite ?app_nil_r.
  - rewrite run_bind; simpl.
    destruct (completion (run env finalizer s)); simpl; now rewrite ?app_nil_r.
  - now rewrite IH.
  - now rewrite IH.
Qed.

(** [finally { setIsLoading(false); }]: whatever the body does and however
    it ends, the flag is down afterwards. *)
Lemma finally_isLoading_false (env : Env) (body : Task R) (s : AppState) :
  isLoading (final (run env (tryFinally body (exec (SetIsLoading false))) s)) = false.
Proof. rewrite run_tryFinally_final. reflexivity. Qed.

(** The finalizer [setIsLoading(false)] touches no other cell. *)
Lemma finally_isLoading_frame (env : Env) (body : Task R) (s : AppState) :
  let s1 := final (run env body s) in
  let s2 := final (run env (tryFinally body (exec (SetIsLoading false))) s) in
  originalImage s2 = originalImage s1 /\ editedImage s2 = editedImage s1 /\
  prompt s2 = prompt s1 /\ aspectRatio s2 = aspectRatio s1 /\ error s2 = error s1.
Proof. simpl. rewrite run_tryFinally_final. simpl. repeat split. Qed.

(** The synchronous prefix agrees with the run: up to its first call the
    trace of a run is the commands of the prefix, and they lead to the
    store [until_await] reports. *)
Lemma until_await_sound (env : Env) (t : Task R) (s s1 : AppState) (q : Request) :
  until_await t s = (s1, Awaiting q) ->
  exists pre post,
    trace (run env t s) = List.map Did pre ++ Called q :: post /\
    apply_all pre s = s1.
Proof.
  revert s; induction t as [r|e|c k IH|q' k IH]; intros s; simpl; try discriminate.
  - intros H. destruct (IH _ H) as (pre & post & Htr & Hst).
    exists (c :: pre), post. simpl. now rewrite Htr.
  - intros H; injection H as -> ->.
    exists [], (trace (run env (k (env q)) s1)). split; reflexivity.
Qed.

(** A task that finishes in its synchronous prefix ignores the
    environment. *)
Lemma until_await_finished (env : Env) (t : Task R) (s s1 : AppState) :
  until_await t s = (s1, Finished) ->
  final (run env t s) = s1 /\ generation_calls (trace (run env t s)) = [].
Proof.
  revert s; induction t as [r|e|c k IH|q' k IH]; intros s; simpl; try discriminate.
  - intros H; injection H as ->. split; reflexivity.
  - intros H. apply IH in H. exact H.
Qed.

End TaskFacts.

(* ===================================================================== *)
(** ** The workflows, branch by branch *)
(* ===================================================================== *)

Arguments lit : simpl never.
Arguments finalPrompt : simpl never.
Arguments base64Data : simpl never.
Arguments errorMessage : simpl never.

Section Workflows.

Variable env : Env.

(** The guard of [handleGenerate] fails. *)
Lemma handleGenerate_invalid (s : AppState) :
  originalImage s = None \/ prompt s = [] ->
  handleGenerate s =
  exec (SetError (Some (lit "Please upload an image and provide a prompt."))).
Proof.
  unfold handleGenerate. intros [H|H]; rewrite H.
  - reflexivity.
  - now destruct (originalImage s).
Qed.

(** The guard of [handleGenerate] passes. *)
Lemma handleGenerate_valid (s : AppState) (image : ImageAsset) :
  originalImage s = Some image -> prompt s <> [] ->
  handleGenerate s =
  (exec (SetIsLoading true) ;;
   exec (SetError None) ;;
   exec (SetEditedImage None) ;;
   tryCatchFinally
     (newImageBase64 <-
        await (EditImageWithPrompt (base64Data image) (mimeType image)
                 (finalPrompt (prompt s) (aspectRatio s))) ;;
      exec (SetEditedImage (Some (lit "data:image/png;base64," ++ newImageBase64))))
     (fun e =>
        exec (SetError (Some (lit "Generation failed: " ++ errorMessage e))) ;;
        exec (ConsoleError None e))
     (exec (SetIsLoading false))).
Proof.
  unfold handleGenerate. intros -> Hp.
  apply is_empty_false in Hp. now rewrite Hp.
Qed.

(** The whole run of a generation that passes the guard, by the outcome of
    the one call it makes. *)
Lemma run_handleGenerate_valid (s : AppState) (image : ImageAsset) :
  originalImage s = Some image -> prompt s <> [] ->
  let q := EditImageWithPrompt (base64Data image) (mimeType image)
             (finalPrompt (prompt s) (aspectRatio s)) in
  let start := [Did (SetIsLoading true); Did (SetError None);
                Did (SetEditedImage None); Called q] in
  run env (handleGenerate s) s =
  match env q with
  | Resolved b =>
      let url := lit "data:image/png;base64," ++ b in
      mkRun (mkAppState (Some image) (Some url) (prompt s) (aspectRatio s) false None)
            (start ++ [Did (SetEditedImage (Some url)); Did (SetIsLoading false)])
            (Returned tt)
  | Rejected e =>
      let msg := lit "Generation failed: " ++ errorMessage e in
      mkRun (mkAppState (Some image) None (prompt s) (aspectRatio s) false (Some msg))
            (start ++ [Did (SetError (Some msg)); Did (ConsoleError None e);
                       Did (SetIsLoading false)])
            (Returned tt)
  end.
Proof.
  intros Himg Hp. rewrite (handleGenerate_valid s Himg Hp). simpl.
  destruct (env _) as [b|e]; simpl; rewrite Himg; reflexivity.
Qed.

(** The upload handler when a file was selected. *)
Lemma handleImageUpload_selected (event : ChangeEvent) (file : File) :
  selectedFile event = Some file ->
  handleImageUpload event =
  tryCatchFinally
    (exec (SetIsLoading true) ;;
     exec (SetError None) ;;
     exec (SetEditedImage None) ;;
     image <- fileToBase64 file ;;
     exec (SetOriginalImage (Some (mkImageAsset (dataUrl image) (mimeType image)))))
    (fun e =>
       exec (SetError (Some (lit "Failed to read the image file."))) ;;
       exec (ConsoleError None e))
    (exec (SetIsLoading false)).
Proof. unfold handleImageUpload. now intros ->. Qed.

Lemma handleImageUpload_no_file (event : ChangeEvent) :
  selectedFile event = None -> handleImageUpload event = Ret tt.
Proof. unfold handleImageUpload. now intros ->. Qed.

(** No file: the list is [null] or empty. *)
Lemma selectedFile_none (event : ChangeEvent) :
  selectedFile event = None <-> files event = None \/ files event = Some [].
Proof.
  unfold selectedFile. destruct (files event) as [[|f l]|]; simpl; split;
    try tauto; try congruence; intros [H|H]; congruence.
Qed.

(** The whole run of an upload, by the outcome of the file read. *)
Lemma run_handleImageUpload_selected (s : AppState) (event : ChangeEvent) (file : File) :
  selectedFile event = Some file ->
  let start := [Did (SetIsLoading true); Did (SetError None);
                Did (SetEditedImage None); Called (ReadAsDataURL file)] in
  run env (handleImageUpload event) s =
  match env (ReadAsDataURL file) with
  | Resolved result =>
      let image :=
        mkImageAsset result
          (substring result (indexOf colon result + 1) (indexOf semicolon result)) in
      mkRun (mkAppState (Some image) None (prompt s) (aspectRatio s) false None)
            (start ++ [Did (SetOriginalImage (Some image)); Did (SetIsLoading false)])
            (Returned tt)
  | Rejected e =>
      let msg := lit "Failed to read the image file." in
      mkRun (mkAppState (originalImage s) None (prompt s) (aspectRatio s) false (Some msg))
            (start ++ [Did (SetError (Some msg)); Did (ConsoleError None e);
                       Did (SetIsLoading false)])
            (Returned tt)
  end.
Proof.
  intros Hf. rewrite (handleImageUpload_selected _ Hf). simpl.
  destruct (env _) as [result|e]; reflexivity.
Qed.

(** The value [urlToDataUrl] throws when the fetch fails. *)
Lemma urlToDataUrl_fetch_fails (s : AppState) :
  fetch_fails env ->
  exists e, run env (urlToDataUrl initialImageUrl) s =
            mkRun s [Called (Fetch initialImageUrl)] (Uncaught e).
Proof.
  unfold urlToDataUrl. intros [[e He]|[response [Hr Hok]]]; simpl; rewrite He || rewrite Hr; simpl.
  - now exists e.
  - rewrite Hok. simpl. eexists; reflexivity.
Qed.

(** The run of the initial load when the fetch fails. *)
Lemma run_loadInitialImage_fetch_fails (s : AppState) :
  fetch_fails env ->
  exists e,
    let msg := lit "Could not load the initial example image. Please try uploading your own." in
    run env loadInitialImage s =
    mkRun (mkAppState (originalImage s) (editedImage s) (prompt s) (aspectRatio s)
                      false (Some msg))
          [Did (SetError None); Did (SetIsLoading true); Called (Fetch initialImageUrl);
           Did (ConsoleError (Some (lit "Failed to load initial image:")) e);
           Did (SetError (Some msg)); Did (SetIsLoading false)]
          (Returned tt).
Proof.
  unfold loadInitialImage, urlToDataUrl.
  intros [[e He]|[response [Hr Hok]]]; simpl.
  - rewrite He. simpl. now exists e.
  - rewrite Hr. simpl. rewrite Hok. simpl. eexists; reflexivity.
Qed.

End Workflows.

(* ===================================================================== *)
(** ** Completion of the workflows *)
(* ===================================================================== *)

Section Completion.

Variable env : Env.

(** A finalizer made of one command keeps the completion of the body. *)
Lemma run_tryFinally_completion {R : Type} (body : Task R) (c : Cmd) (s : AppState) :
  completion (run env (tryFinally body (exec c)) s) = completion (run env body s).
Proof.
  revert s; induction body as [r|e|c' k IH|q k IH]; intros s; simpl;
    try reflexivity; apply IH.
Qed.

(** [try / catch / finally] with a handler and a finalizer made of commands
    always returns. *)
Lemma tryCatchFinally_returns (body : Task unit) (handler : Thrown -> Task unit)
    (c : Cmd) (s : AppState) :
  (forall e s', completion (run env (handler e) s') = Returned tt) ->
  completion (run env (tryCatchFinally body handler (exec c)) s) = Returned tt.
Proof.
  intros Hh. unfold tryCatchFinally. rewrite run_tryFinally_completion.
  destruct (tryCatch_returns env body handler) with (s := s) as [[] Hr].
  - intros e s'. exists tt. apply Hh.
  - exact Hr.
Qed.

Lemma loadInitialImage_brackets (s : AppState) :
  brackets_loading env loadInitialImage s (Fetch initialImageUrl).
Proof.
  repeat split.
  - eexists. simpl. repeat split.
  - apply finally_isLoading_false.
  - apply tryCatchFinally_returns. reflexivity.
Qed.

Lemma handleImageUpload_brackets (s : AppState) (event : ChangeEvent) (file : File) :
  selectedFile event = Some file ->
  brackets_loading env (handleImageUpload event) s (ReadAsDataURL file).
Proof.
  intros Hf. rewrite (handleImageUpload_selected _ Hf). repeat split.
  - eexists. simpl. repeat split.
  - apply finally_isLoading_false.
  - apply tryCatchFinally_returns. reflexivity.
Qed.

Lemma handleGenerate_brackets (s : AppState) (image : ImageAsset) :
  originalImage s = Some image -> prompt s <> [] ->
  brackets_loading env (handleGenerate s) s
    (EditImageWithPrompt (base64Data image) (mimeType image)
       (finalPrompt (prompt s) (aspectRatio s))).
Proof.
  intros Himg Hp. rewrite (handleGenerate_valid s Himg Hp). repeat split.
  - eexists. simpl. repeat split.
  - cbn [bind exec run final]. apply finally_isLoading_false.
  - cbn [bind exec run completion]. apply tryCatchFinally_returns. reflexivity.
Qed.

End Completion.

(* ===================================================================== *)
(** ** The model at work *)
(* ===================================================================== *)

Example trim_blanks :
  trim (lit "  a marble countertop ") = lit "a marble countertop".
Proof. reflexivity. Qed.

Example trim_line_ends_and_nbsp :
  trim ([0x00A0; 0x0009; 0x2028]%N ++ lit "a  b" ++ [0x000A; 0x000D; 0xFEFF]%N) = lit "a  b".
Proof. reflexivity. Qed.

Example trim_only_blanks : trim (lit "   ") = [].
Proof. reflexivity. Qed.

Example split_three : split comma (lit "a,b,c") = [lit "a"; lit "b"; lit "c"].
Proof. reflexivity. Qed.

Example split_empty : split comma [] = [[]].
Proof. reflexivity. Qed.

Example split_no_comma : nth_error (split comma (lit "abc")) 1 = None.
Proof. reflexivity. Qed.

Example substring_swaps : substring (lit "abcdef") 4 1 = lit "bcd".
Proof. reflexivity. Qed.

Example indexOf_missing : indexOf semicolon (lit "abc") = (-1)%Z.
Proof. reflexivity. Qed.

(** [fileToBase64] reads the MIME type off the data URL. *)
Example fileToBase64_jpeg :
  completion (run env_fulfilled (fileToBase64 pngFile) initialState)
  = Returned (mkImageAsset (lit "data:image/jpeg;base64,/9j/") (lit "image/jpeg")).
Proof. reflexivity. Qed.

(** The initial load under a working network. *)
Example loadInitialImage_fulfilled :
  run env_fulfilled loadInitialImage initialState =
  mkRun (mkAppState
           (Some (mkImageAsset (lit "data:image/jpeg;base64,/9j/") (lit "image/jpeg")))
           None defaultPrompt (lit "original") false None)
        [Did (SetError None); Did (SetIsLoading true);
         Called (Fetch initialImageUrl);
         Called (ResponseBlob (mkResponse true));
         Called (ReadAsDataURL
                   (mkFile (lit "initial-image.jpeg") (lit "image/jpeg") [255; 216; 255]%N));
         Did (SetOriginalImage
                (Some (mkImageAsset (lit "data:image/jpeg;base64,/9j/") (lit "image/jpeg"))));
         Did (SetIsLoading false)]
        (Returned tt).
Proof. reflexivity. Qed.

(** The Generate button is disabled in the store of the first render and
    enabled once the example image is there. *)
Example generate_button :
  generateDisabled initialState = true /\
  generateDisabled (final (run env_fulfilled loadInitialImage initialState)) = false.
Proof. split; reflexivity. Qed.

(** Load, then generate with the default prompt. *)
Example load_then_generate :
  editedImage
    (final (run env_fulfilled
              (handleGenerate (final (run env_fulfilled loadInitialImage initialState)))
              (final (run env_fulfilled loadInitialImage initialState))))
  = Some (lit "data:image/png;base64,Zm9v").
Proof. vm_compute. reflexivity. Qed.

(** Whenever the guard of [handleGenerate] fails the button is disabled:
    the branch is not reachable by a click. *)
Lemma guard_fails_button_disabled (s : AppState) :
  originalImage s = None \/ prompt s = [] -> generateDisabled s = true.
Proof.
  unfold generateDisabled. intros [H|H]; rewrite H; simpl.
  - now rewrite orb_true_r.
  - now rewrite orb_true_r.
Qed.

(* ===================================================================== *)
(** ** Properties of the specification *)
(* ===================================================================== *)

Unset Implicit Arguments.

(** *** The guard of the generate workflow *)

(** C1, as stated, fails: at the store of the first render the original
    image is absent, the loading flag is up, and a call of the generate
    workflow leaves the flag up. *)
Lemma generate_guard_keeps_raised_flag :
  (originalImage initialState = None \/ prompt initialState = []) /\
  isLoading (final (run env_fulfilled (handleGenerate initialState) initialState))
    <> false.
Proof.
  split.
  - left; reflexivity.
  - rewrite handleGenerate_invalid by (left; reflexivity). simpl. discriminate.
Qed.

(** C1, amended: in every store where the original image is absent or the
    prompt is empty, the generate workflow sets the validation error, makes
    no call of the Generation Client, and leaves [isLoading] as it was. *)
Theorem generate_guard_rejects (env : Env) (s : AppState) :
  originalImage s = None \/ prompt s = [] ->
  error (final (run env (handleGenerate s) s))
    = Some (lit "Please upload an image and provide a prompt.") /\
  generation_calls (trace (run env (handleGenerate s) s)) = [] /\
  (forall q, ~ In (Called q) (trace (run env (handleGenerate s) s))) /\
  isLoading (final (run env (handleGenerate s) s)) = isLoading s.
Proof.
  intros H. rewrite (handleGenerate_invalid s H). simpl.
  repeat split. intros q [Hq|[]]. discriminate.
Qed.

Lemma generate_guard_rejects_witness :
  (prompt (mkAppState (Some pngImage) None [] (lit "1:1") false None) = [] /\
   originalImage initialState = None) /\
  error (final (run env_fulfilled
                  (handleGenerate (mkAppState (Some pngImage) None [] (lit "1:1") false None))
                  (mkAppState (Some pngImage) None [] (lit "1:1") false None)))
    = Some (lit "Please upload an image and provide a prompt.") /\
  isLoading (final (run env_fulfilled (handleGenerate initialState) initialState)) = true.
Proof.
  split; [split; reflexivity|]. split.
  - apply (generate_guard_rejects env_fulfilled
             (mkAppState (Some pngImage) None [] (lit "1:1") false None)).
    right; reflexivity.
  - apply (generate_guard_rejects env_fulfilled initialState).
    left; reflexivity.
Defined.

(** C9: when the guard of the generate workflow fails, the store changes in
    its error cell only; a former edited image stays. *)
Theorem generate_guard_only_sets_error (env : Env) (s : AppState) :
  originalImage s = None \/ prompt s = [] ->
  final (run env (handleGenerate s) s)
    = apply_cmd (SetError (Some (lit "Please upload an image and provide a prompt."))) s /\
  trace (run env (handleGenerate s) s)
    = [Did (SetError (Some (lit "Please upload an image and provide a prompt.")))] /\
  editedImage (final (run env (handleGenerate s) s)) = editedImage s /\
  originalImage (final (run env (handleGenerate s) s)) = originalImage s /\
  prompt (final (run env (handleGenerate s) s)) = prompt s /\
  aspectRatio (final (run env (handleGenerate s) s)) = aspectRatio s /\
  isLoading (final (run env (handleGenerate s) s)) = isLoading s.
Proof.
  intros H. rewrite (handleGenerate_invalid s H). simpl. repeat split.
Qed.

Lemma generate_guard_only_sets_error_witness :
  prompt (mkAppState (Some pngImage) (Some (lit "data:image/png;base64,b2xk")) []
            (lit "4:5") false None) = [] /\
  editedImage
    (final (run env_rejected
       (handleGenerate (mkAppState (Some pngImage) (Some (lit "data:image/png;base64,b2xk"))
                          [] (lit "4:5") false None))
       (mkAppState (Some pngImage) (Some (lit "data:image/png;base64,b2xk")) []
          (lit "4:5") false None)))
    = Some (lit "data:image/png;base64,b2xk").
Proof.
  split; [reflexivity|].
  apply (generate_guard_only_sets_error env_rejected
           (mkAppState (Some pngImage) (Some (lit "data:image/png;base64,b2xk")) []
              (lit "4:5") false None)).
  right; reflexivity.
Defined.

(** *** The call of the Generation Client *)

Lemma finalPrompt_original (p : jsstring) : finalPrompt p (lit "original") = p.
Proof. reflexivity. Qed.

Lemma finalPrompt_other (p r : jsstring) :
  r <> lit "original" ->
  finalPrompt p r =
  trim p ++ lit " "
         ++ lit "Please ensure the final image composition is suitable for a "
         ++ r ++ lit " aspect ratio.".
Proof.
  intros Hr. unfold finalPrompt.
  apply eqb_neq in Hr. rewrite Hr. simpl. reflexivity.
Qed.

Lemma sent_prompts_valid (env : Env) (s : AppState) (image : ImageAsset) :
  originalImage s = Some image -> prompt s <> [] ->
  sent_prompts (trace (run env (handleGenerate s) s))
    = [finalPrompt (prompt s) (aspectRatio s)].
Proof.
  intros Himg Hp. rewrite (run_handleGenerate_valid env s Himg Hp).
  destruct (env _); reflexivity.
Qed.

Lemma sent_payloads_valid (env : Env) (s : AppState) (image : ImageAsset) :
  originalImage s = Some image -> prompt s <> [] ->
  sent_payloads (trace (run env (handleGenerate s) s)) = [base64Data image].
Proof.
  intros Himg Hp. rewrite (run_handleGenerate_valid env s Himg Hp).
  destruct (env _); reflexivity.
Qed.

(** C2: the one prompt sent to the Generation Client is the prompt of the
    store, untouched, when the aspect ratio is "original"; for "1:1", "9:16"
    and "4:5" it is the trimmed prompt, one space, and the clause "Please
    ensure the final image composition is suitable for a (ratio) aspect
    ratio." *)
Theorem prompt_sent_to_generation_client (env : Env) (s : AppState) (image : ImageAsset) :
  originalImage s = Some image -> prompt s <> [] ->
  (aspectRatio s = lit "original" ->
   sent_prompts (trace (run env (handleGenerate s) s)) = [prompt s]) /\
  (In (aspectRatio s) [lit "1:1"; lit "9:16"; lit "4:5"] ->
   sent_prompts (trace (run env (handleGenerate s) s))
     = [trim (prompt s) ++ lit " "
          ++ lit "Please ensure the final image composition is suitable for a "
          ++ aspectRatio s ++ lit " aspect ratio."]).
Proof.
  intros Himg Hp. rewrite (sent_prompts_valid env s image Himg Hp). split.
  - intros ->. now rewrite finalPrompt_original.
  - intros Hin. rewrite finalPrompt_other; [reflexivity|].
    simpl in Hin. destruct Hin as [<-|[<-|[<-|[]]]]; discriminate.
Qed.

Lemma prompt_sent_to_generation_client_witness :
  (originalImage (readyState pngImage (lit "4:5")) = Some pngImage /\
   prompt (readyState pngImage (lit "4:5")) <> [] /\
   In (aspectRatio (readyState pngImage (lit "4:5"))) [lit "1:1"; lit "9:16"; lit "4:5"]) /\
  sent_prompts (trace (run env_fulfilled (handleGenerate (readyState pngImage (lit "4:5")))
                         (readyState pngImage (lit "4:5"))))
    = [lit "a marble countertop Please ensure the final image composition is suitable for a 4:5 aspect ratio."].
Proof.
  split.
  - split; [reflexivity|]. split; [discriminate|]. right; right; left; reflexivity.
  - apply (prompt_sent_to_generation_client env_fulfilled
             (readyState pngImage (lit "4:5")) pngImage).
    + reflexivity.
    + discriminate.
    + right; right; left; reflexivity.
Defined.

(** C3: when the Generation Client answers the base64 string [b], the
    edited image becomes "data:image/png;base64," followed by [b]. *)
Theorem edited_image_is_png_data_url (env : Env) (s : AppState) (image : ImageAsset)
    (b : jsstring) :
  originalImage s = Some image -> prompt s <> [] ->
  env (EditImageWithPrompt (base64Data image) (mimeType image)
         (finalPrompt (prompt s) (aspectRatio s))) = Resolved b ->
  editedImage (final (run env (handleGenerate s) s))
    = Some (lit "data:image/png;base64," ++ b).
Proof.
  intros Himg Hp Hb. rewrite (run_handleGenerate_valid env s Himg Hp).
  cbv zeta. rewrite Hb. reflexivity.
Qed.

Lemma edited_image_is_png_data_url_witness :
  (originalImage (readyState pngImage (lit "original")) = Some pngImage /\
   prompt (readyState pngImage (lit "original")) <> [] /\
   env_fulfilled (EditImageWithPrompt (base64Data pngImage) (mimeType pngImage)
                    (finalPrompt (prompt (readyState pngImage (lit "original")))
                                 (aspectRatio (readyState pngImage (lit "original")))))
     = Resolved (lit "Zm9v")) /\
  editedImage (final (run env_fulfilled (handleGenerate (readyState pngImage (lit "original")))
                        (readyState pngImage (lit "original"))))
    = Some (lit "data:image/png;base64,Zm9v").
Proof.
  split.
  - split; [reflexivity|]. split; [discriminate|reflexivity].
  - apply (edited_image_is_png_data_url env_fulfilled
             (readyState pngImage (lit "original")) pngImage (lit "Zm9v")).
    + reflexivity.
    + discriminate.
    + reflexivity.
Defined.

(** C4, as stated, fails: for a stored data URL with two commas the payload
    passed to the Generation Client stops at the second comma and is not
    the whole rest after the first. *)
Lemma payload_stops_at_second_comma :
  (originalImage (readyState twoCommaImage (lit "original")) = Some twoCommaImage /\
   prompt (readyState twoCommaImage (lit "original")) <> []) /\
  after_first comma (dataUrl twoCommaImage) = Some (lit "b;base64,QUJD") /\
  sent_payloads (trace (run env_fulfilled
                          (handleGenerate (readyState twoCommaImage (lit "original")))
                          (readyState twoCommaImage (lit "original"))))
    = [Some (lit "b;base64")] /\
  sent_payloads (trace (run env_fulfilled
                          (handleGenerate (readyState twoCommaImage (lit "original")))
                          (readyState twoCommaImage (lit "original"))))
    <> [after_first comma (dataUrl twoCommaImage)].
Proof.
  split; [split; [reflexivity|discriminate]|].
  split; [reflexivity|]. split; [reflexivity|].
  vm_compute. discriminate.
Qed.

(** C4, amended: the payload passed to the Generation Client is the piece
    of the stored data URL between its first comma and its second comma (up
    to the end when there is no second comma; [undefined] when there is no
    comma at all); it is the entire substring after the first comma exactly
    when the data URL holds at most one comma. *)
Theorem payload_is_second_piece (env : Env) (s : AppState) (image : ImageAsset) :
  originalImage s = Some image -> prompt s <> [] ->
  sent_payloads (trace (run env (handleGenerate s) s))
    = [option_map (up_to comma) (after_first comma (dataUrl image))] /\
  (sent_payloads (trace (run env (handleGenerate s) s))
     = [after_first comma (dataUrl image)]
   <-> occurrences comma (dataUrl image) <= 1).
Proof.
  intros Himg Hp. rewrite (sent_payloads_valid env s image Himg Hp).
  unfold base64Data. split.
  - now rewrite split_second.
  - split.
    + rewrite split_second. intros H. injection H as H.
      destruct (after_first comma (dataUrl image)) as [rest|] eqn:Hrest.
      * rewrite (occurrences_after_first _ _ Hrest).
        destruct (occurrences comma rest) eqn:Hn; [lia|].
        simpl in H. injection H as H.
        assert (Hlt : List.length (up_to comma rest) < List.length rest)
          by (apply up_to_length; lia).
        rewrite H in Hlt. lia.
      * apply after_first_none in Hrest. lia.
    + intros Hle. now rewrite split_second_single.
Qed.

Lemma payload_is_second_piece_witness :
  (originalImage (readyState pngImage (lit "1:1")) = Some pngImage /\
   prompt (readyState pngImage (lit "1:1")) <> []) /\
  sent_payloads (trace (run env_rejected (handleGenerate (readyState pngImage (lit "1:1")))
                          (readyState pngImage (lit "1:1"))))
    = [Some (lit "QUJD")] /\
  occurrences comma (dataUrl pngImage) <= 1 /\
  sent_payloads (trace (run env_rejected (handleGenerate (readyState pngImage (lit "1:1")))
                          (readyState pngImage (lit "1:1"))))
    = [after_first comma (dataUrl pngImage)].
Proof.
  split; [split; [reflexivity|discriminate]|].
  split; [|split].
  - refine (proj1 (payload_is_second_piece env_rejected
                     (readyState pngImage (lit "1:1")) pngImage _ _)).
    + reflexivity.
    + discriminate.
  - vm_compute. lia.
  - refine (proj2 (proj2 (payload_is_second_piece env_rejected
                     (readyState pngImage (lit "1:1")) pngImage _ _)) _).
    + reflexivity.
    + discriminate.
    + vm_compute. lia.
Defined.

(** The failure is an [Error] with the message [m]: the stored error is
    "Generation failed: " followed by [m]. *)
Lemma generation_failure_message (env : Env) (s : AppState) (image : ImageAsset)
    (m : jsstring) :
  originalImage s = Some image -> prompt s <> [] ->
  env (EditImageWithPrompt (base64Data image) (mimeType image)
         (finalPrompt (prompt s) (aspectRatio s))) = Rejected (ErrorInstance m) ->
  error (final (run env (handleGenerate s) s)) = Some (lit "Generation failed: " ++ m).
Proof.
  intros Himg Hp Hm. rewrite (run_handleGenerate_valid env s Himg Hp).
  cbv zeta. rewrite Hm. reflexivity.
Qed.

(** C8, as stated, fails: when the Generation Client throws the string
    "quota exceeded", a value that is no instance of [Error], the stored
    error does not carry that text; it is "Generation failed: An unknown
    error occurred." *)
Lemma generation_failure_hides_thrown_text :
  (originalImage (readyState pngImage (lit "9:16")) = Some pngImage /\
   prompt (readyState pngImage (lit "9:16")) <> [] /\
   env_thrown_string
     (EditImageWithPrompt (base64Data pngImage) (mimeType pngImage)
        (finalPrompt (prompt (readyState pngImage (lit "9:16")))
                     (aspectRatio (readyState pngImage (lit "9:16")))))
   = Rejected (OtherValue (lit "quota exceeded"))) /\
  error (final (run env_thrown_string (handleGenerate (readyState pngImage (lit "9:16")))
                  (readyState pngImage (lit "9:16"))))
    = Some (lit "Generation failed: An unknown error occurred.") /\
  error (final (run env_thrown_string (handleGenerate (readyState pngImage (lit "9:16")))
                  (readyState pngImage (lit "9:16"))))
    <> Some (lit "Generation failed: " ++ lit "quota exceeded").
Proof.
  split; [split; [reflexivity|split; [discriminate|reflexivity]]|].
  split; [reflexivity|]. vm_compute. discriminate.
Qed.

(** C8, amended: when the call of the Generation Client fails, the stored
    error is "Generation failed: " followed by the message of the thrown
    value when that value is an instance of [Error], and by the fixed text
    "An unknown error occurred." when it is any other value. *)
Theorem generation_failure_error_text (env : Env) (s : AppState) (image : ImageAsset)
    (e : Thrown) :
  originalImage s = Some image -> prompt s <> [] ->
  env (EditImageWithPrompt (base64Data image) (mimeType image)
         (finalPrompt (prompt s) (aspectRatio s))) = Rejected e ->
  error (final (run env (handleGenerate s) s))
  = Some (lit "Generation failed: "
            ++ match e with
               | ErrorInstance message => message
               | OtherValue _ => lit "An unknown error occurred."
               end).
Proof.
  intros Himg Hp He. rewrite (run_handleGenerate_valid env s Himg Hp).
  cbv zeta. rewrite He. destruct e; reflexivity.
Qed.

Lemma generation_failure_error_text_witness :
  (originalImage (readyState pngImage (lit "9:16")) = Some pngImage /\
   prompt (readyState pngImage (lit "9:16")) <> [] /\
   env_rejected (EditImageWithPrompt (base64Data pngImage) (mimeType pngImage)
                   (finalPrompt (prompt (readyState pngImage (lit "9:16")))
                                (aspectRatio (readyState pngImage (lit "9:16")))))
     = Rejected (ErrorInstance (lit "quota exceeded"))) /\
  error (final (run env_rejected (handleGenerate (readyState pngImage (lit "9:16")))
                  (readyState pngImage (lit "9:16"))))
    = Some (lit "Generation failed: quota exceeded") /\
  error (final (run env_thrown_string (handleGenerate (readyState pngImage (lit "9:16")))
                  (readyState pngImage (lit "9:16"))))
    = Some (lit "Generation failed: An unknown error occurred.").
Proof.
  split.
  - split; [reflexivity|]. split; [discriminate|reflexivity].
  - split.
    + apply (generation_failure_error_text env_rejected
               (readyState pngImage (lit "9:16")) pngImage
               (ErrorInstance (lit "quota exceeded"))).
      * reflexivity.
      * discriminate.
      * reflexivity.
    + apply (generation_failure_error_text env_thrown_string
               (readyState pngImage (lit "9:16")) pngImage
               (OtherValue (lit "quota exceeded"))).
      * reflexivity.
      * discriminate.
      * reflexivity.
Defined.

(** A thrown value that is no instance of [Error] has no message to show:
    the handler falls back on a fixed text. *)
Lemma generation_failure_unknown (env : Env) (s : AppState) (image : ImageAsset)
    (d : jsstring) :
  originalImage s = Some image -> prompt s <> [] ->
  env (EditImageWithPrompt (base64Data image) (mimeType image)
         (finalPrompt (prompt s) (aspectRatio s))) = Rejected (OtherValue d) ->
  error (final (run env (handleGenerate s) s))
    = Some (lit "Generation failed: An unknown error occurred.").
Proof.
  intros Himg Hp Hm. rewrite (run_handleGenerate_valid env s Himg Hp).
  cbv zeta. rewrite Hm. reflexivity.
Qed.

(** *** The shape of the workflows *)

(** C5: an upload of a selected file and a generation that passes the guard
    have set the edited image to [null] when they are suspended on their
    asynchronous step, the file read or the call of the Generation Client;
    the store at that point does not depend on how the step ends. *)
Theorem edited_image_cleared_before_await (s : AppState) :
  (forall event file,
     selectedFile event = Some file ->
     clears_edited_before (handleImageUpload event) s (ReadAsDataURL file)) /\
  (forall image,
     originalImage s = Some image -> prompt s <> [] ->
     clears_edited_before (handleGenerate s) s
       (EditImageWithPrompt (base64Data image) (mimeType image)
          (finalPrompt (prompt s) (aspectRatio s)))).
Proof.
  split.
  - intros event file Hf. rewrite (handleImageUpload_selected event Hf).
    eexists. simpl. split; reflexivity.
  - intros image Himg Hp. rewrite (handleGenerate_valid s Himg Hp).
    eexists. simpl. split; reflexivity.
Qed.

Lemma edited_image_cleared_before_await_witness :
  (selectedFile (mkChangeEvent (Some [pngFile])) = Some pngFile /\
   originalImage (readyState pngImage (lit "original")) = Some pngImage /\
   prompt (readyState pngImage (lit "original")) <> []) /\
  editedImage (readyState pngImage (lit "original")) <> None /\
  clears_edited_before (handleImageUpload (mkChangeEvent (Some [pngFile])))
    (readyState pngImage (lit "original")) (ReadAsDataURL pngFile) /\
  clears_edited_before (handleGenerate (readyState pngImage (lit "original")))
    (readyState pngImage (lit "original"))
    (EditImageWithPrompt (base64Data pngImage) (mimeType pngImage)
       (finalPrompt (prompt (readyState pngImage (lit "original")))
                    (aspectRatio (readyState pngImage (lit "original"))))).
Proof.
  split; [split; [reflexivity|split; [reflexivity|discriminate]]|].
  split; [discriminate|]. split.
  - apply (proj1 (edited_image_cleared_before_await (readyState pngImage (lit "original")))).
    reflexivity.
  - apply (proj2 (edited_image_cleared_before_await (readyState pngImage (lit "original")))).
    + reflexivity.
    + discriminate.
Defined.

(** The edited image is still [null] when an upload is over, whether the
    file could be read or not. *)
Lemma upload_leaves_no_edited_image (env : Env) (s : AppState) (event : ChangeEvent)
    (file : File) :
  selectedFile event = Some file ->
  editedImage (final (run env (handleImageUpload event) s)) = None.
Proof.
  intros Hf. rewrite (run_handleImageUpload_selected env s event Hf).
  cbv zeta. destruct (env _); reflexivity.
Qed.

(** C6: the initial load, an upload of a selected file and a generation
    that passes the guard all have cleared the error and raised [isLoading]
    when they are suspended on their first asynchronous step, and all end,
    whatever the outcome of their steps, with [isLoading] false. *)
Theorem workflows_bracket_loading (env : Env) (s : AppState) :
  brackets_loading env loadInitialImage s (Fetch initialImageUrl) /\
  (forall event file,
     selectedFile event = Some file ->
     brackets_loading env (handleImageUpload event) s (ReadAsDataURL file)) /\
  (forall image,
     originalImage s = Some image -> prompt s <> [] ->
     brackets_loading env (handleGenerate s) s
       (EditImageWithPrompt (base64Data image) (mimeType image)
          (finalPrompt (prompt s) (aspectRatio s)))).
Proof.
  split; [apply loadInitialImage_brackets|]. split.
  - intros event file. apply handleImageUpload_brackets.
  - intros image. apply handleGenerate_brackets.
Qed.

Lemma workflows_bracket_loading_witness :
  (selectedFile (mkChangeEvent (Some [pngFile])) = Some pngFile /\
   originalImage (readyState pngImage (lit "4:5")) = Some pngImage /\
   prompt (readyState pngImage (lit "4:5")) <> []) /\
  brackets_loading env_rejected (handleImageUpload (mkChangeEvent (Some [pngFile])))
    (readyState pngImage (lit "4:5")) (ReadAsDataURL pngFile) /\
  brackets_loading env_rejected (handleGenerate (readyState pngImage (lit "4:5")))
    (readyState pngImage (lit "4:5"))
    (EditImageWithPrompt (base64Data pngImage) (mimeType pngImage)
       (finalPrompt (prompt (readyState pngImage (lit "4:5")))
                    (aspectRatio (readyState pngImage (lit "4:5"))))).
Proof.
  split; [split; [reflexivity|split; [reflexivity|discriminate]]|].
  split.
  - apply (proj1 (proj2 (workflows_bracket_loading env_rejected
                           (readyState pngImage (lit "4:5"))))).
    reflexivity.
  - apply (proj2 (proj2 (workflows_bracket_loading env_rejected
                           (readyState pngImage (lit "4:5"))))).
    + reflexivity.
    + discriminate.
Defined.

(** C7: when the fetch of the example image fails, the initial load ends
    with [isLoading] false, with the fixed message that asks for an upload
    as the error, whatever was thrown, and with the original image still
    [null]. *)
Theorem initial_load_failure (env : Env) (s : AppState) :
  originalImage s = None ->
  fetch_fails env ->
  isLoading (final (run env loadInitialImage s)) = false /\
  error (final (run env loadInitialImage s))
    = Some (lit "Could not load the initial example image. Please try uploading your own.") /\
  originalImage (final (run env loadInitialImage s)) = None.
Proof.
  intros Hnone Hfail.
  destruct (@run_loadInitialImage_fetch_fails env s Hfail) as [e He].
  cbv zeta in He. rewrite He. simpl. repeat split. exact Hnone.
Qed.

Lemma initial_load_failure_witness :
  (originalImage initialState = None /\ fetch_fails env_rejected /\ fetch_fails env_not_ok) /\
  error (final (run env_rejected loadInitialImage initialState))
    = Some (lit "Could not load the initial example image. Please try uploading your own.") /\
  isLoading (final (run env_not_ok loadInitialImage initialState)) = false.
Proof.
  assert (H1 : fetch_fails env_rejected).
  { left. eexists. reflexivity. }
  assert (H2 : fetch_fails env_not_ok).
  { right. exists (mkResponse false). split; reflexivity. }
  split; [split; [reflexivity|split; assumption]|]. split.
  - apply (initial_load_failure env_rejected initialState eq_refl H1).
  - apply (initial_load_failure env_not_ok initialState eq_refl H2).
Defined.

(** C10: a change event that carries no file, its list being [null] or
    empty, leaves the whole store as it was, and starts no file read: the
    handler does nothing at all. *)
Theorem upload_without_file_is_noop (env : Env) (s : AppState) (event : ChangeEvent) :
  files event = None \/ files event = Some [] ->
  final (run env (handleImageUpload event) s) = s /\
  trace (run env (handleImageUpload event) s) = [] /\
  originalImage (final (run env (handleImageUpload event) s)) = originalImage s /\
  editedImage (final (run env (handleImageUpload event) s)) = editedImage s /\
  error (final (run env (handleImageUpload event) s)) = error s /\
  isLoading (final (run env (handleImageUpload event) s)) = isLoading s.
Proof.
  intros H. apply selectedFile_none in H.
  rewrite (handleImageUpload_no_file event H). simpl. repeat split.
Qed.

Lemma upload_without_file_is_noop_witness :
  (files (mkChangeEvent (Some [])) = Some [] /\ files (mkChangeEvent None) = None) /\
  final (run env_fulfilled (handleImageUpload (mkChangeEvent (Some [])))
           (readyState pngImage (lit "1:1")))
    = readyState pngImage (lit "1:1") /\
  trace (run env_fulfilled (handleImageUpload (mkChangeEvent None)) initialState) = [].
Proof.
  split; [split; reflexivity|]. split.
  - apply (upload_without_file_is_noop env_fulfilled (readyState pngImage (lit "1:1"))
             (mkChangeEvent (Some []))).
    right; reflexivity.
  - apply (upload_without_file_is_noop env_fulfilled initialState (mkChangeEvent None)).
    left; reflexivity.
Defined.

(* ===================================================================== *)
(** ** The helpers [fileToBase64] and [urlToDataUrl] *)
(* ===================================================================== *)

Section Helpers.

(** [indexOf] finds the first occurrence. *)
Lemma indexOf_first (ch : N) (pre rest : jsstring) :
  occurrences ch pre = 0 ->
  indexOf ch (pre ++ ch :: rest) = Z.of_nat (List.length pre).
Proof.
  induction pre as [|c pre IH]; simpl.
  - now rewrite N.eqb_refl.
  - destruct (N.eqb c ch); simpl; [discriminate|].
    intros H. rewrite (IH H).
    destruct (Z.ltb_spec (Z.of_nat (List.length pre)) 0); lia.
Qed.

Lemma indexOf_absent (ch : N) (s : jsstring) :
  occurrences ch s = 0 -> indexOf ch s = (-1)%Z.
Proof.
  induction s as [|c s IH]; simpl; [reflexivity|].
  destruct (N.eqb c ch); simpl; [discriminate|].
  intros H. now rewrite (IH H).
Qed.

Lemma occurrences_app (ch : N) (a b : jsstring) :
  occurrences ch (a ++ b) = occurrences ch a + occurrences ch b.
Proof.
  induction a as [|c a IH]; simpl; [reflexivity|]. rewrite IH. lia.
Qed.

(** [substring] between two positions in order, inside the string. *)
Lemma substring_middle (pre mid post : jsstring) :
  substring (pre ++ mid ++ post)
    (Z.of_nat (List.length pre)) (Z.of_nat (List.length pre + List.length mid)) = mid.
Proof.
  unfold substring. cbv zeta. rewrite !length_app.
  set (p := List.length pre). set (m := List.length mid). set (q := List.length post).
  replace (Z.min (Z.max (Z.of_nat p) 0) (Z.of_nat (p + (m + q))))
    with (Z.of_nat p) by lia.
  replace (Z.min (Z.max (Z.of_nat (p + m)) 0) (Z.of_nat (p + (m + q))))
    with (Z.of_nat (p + m)) by lia.
  replace (Z.min (Z.of_nat p) (Z.of_nat (p + m))) with (Z.of_nat p) by lia.
  replace (Z.max (Z.of_nat p) (Z.of_nat (p + m))) with (Z.of_nat (p + m)) by lia.
  replace (Z.to_nat (Z.of_nat (p + m) - Z.of_nat p)) with m by lia.
  rewrite Nat2Z.id. subst p m.
  rewrite skipn_app, skipn_all, Nat.sub_diag. simpl.
  rewrite firstn_app, firstn_all, Nat.sub_diag. simpl. apply app_nil_r.
Qed.

(** [substring] with a negative end: the ends are swapped, so the result
    is the start of the string. *)
Lemma substring_negative_end (s : jsstring) (a : Z) :
  (0 <= a <= Z.of_nat (List.length s))%Z ->
  substring s a (-1) = firstn (Z.to_nat a) s.
Proof.
  intros Ha. unfold substring. cbv zeta.
  replace (Z.min (Z.max a 0) (Z.of_nat (List.length s))) with a by lia.
  replace (Z.min (Z.max (-1) 0) (Z.of_nat (List.length s))) with 0%Z by lia.
  replace (Z.min a 0) with 0%Z by lia.
  replace (Z.max a 0) with a by lia.
  simpl. now rewrite Z.sub_0_r.
Qed.

(** The MIME type [fileToBase64] cuts out of a reader result
    [pre : mime ; rest] is [mime], provided [pre] holds no colon and no
    semicolon and [mime] no semicolon. *)
Lemma mimeType_between_colon_and_semicolon (pre mime rest : jsstring) :
  occurrences colon pre = 0 -> occurrences semicolon pre = 0 ->
  occurrences semicolon mime = 0 ->
  let result := pre ++ colon :: mime ++ semicolon :: rest in
  substring result (indexOf colon result + 1) (indexOf semicolon result) = mime.
Proof.
  intros Hc Hs Hm result. unfold result.
  rewrite (indexOf_first colon pre _ Hc).
  replace (pre ++ colon :: mime ++ semicolon :: rest)
    with ((pre ++ colon :: mime) ++ semicolon :: rest)
    by (now rewrite <- app_assoc).
  rewrite indexOf_first.
  - rewrite <- app_assoc. simpl.
    replace (pre ++ colon :: mime ++ semicolon :: rest)
      with ((pre ++ [colon]) ++ mime ++ semicolon :: rest)
      by (now rewrite <- app_assoc).
    replace (Z.of_nat (List.length pre) + 1)%Z
      with (Z.of_nat (List.length (pre ++ [colon])))
      by (rewrite length_app; simpl; lia).
    replace (Z.of_nat (List.length (pre ++ colon :: mime)))
      with (Z.of_nat (List.length (pre ++ [colon]) + List.length mime))
      by (rewrite !length_app; simpl; lia).
    apply substring_middle.
  - rewrite occurrences_app. simpl. rewrite Hs, Hm. reflexivity.
Qed.

End Helpers.

Section HelperRuns.

Variable env : Env.

Lemma indexOf_bounds (ch : N) (s : jsstring) :
  (-1 <= indexOf ch s < Z.of_nat (List.length s))%Z \/ (s = [] /\ indexOf ch s = (-1)%Z).
Proof.
  induction s as [|c s IH]; [right; split; reflexivity|left].
  simpl List.length. simpl indexOf.
  destruct (N.eqb c ch); [lia|].
  destruct IH as [IH|[-> IH]].
  - destruct (Z.ltb_spec (indexOf ch s) 0); lia.
  - simpl. lia.
Qed.

(** X1: When the reader answers [pre : mime ; rest], with no colon and no
    semicolon in [pre] and no semicolon in [mime], [fileToBase64] returns
    the answer as [dataUrl] and [mime] as [mimeType]. *)
Theorem fileToBase64_reads_mime_type (s : AppState) (file : File)
    (pre mime rest : jsstring) :
  occurrences colon pre = 0 -> occurrences semicolon pre = 0 ->
  occurrences semicolon mime = 0 ->
  env (ReadAsDataURL file) = Resolved (pre ++ colon :: mime ++ semicolon :: rest) ->
  run env (fileToBase64 file) s =
  mkRun s [Called (ReadAsDataURL file)]
        (Returned (mkImageAsset (pre ++ colon :: mime ++ semicolon :: rest) mime)).
Proof.
  intros Hc Hs Hm Hr. unfold fileToBase64. simpl. rewrite Hr. simpl.
  now rewrite (mimeType_between_colon_and_semicolon pre mime rest Hc Hs Hm).
Qed.

(** X2: When the answer of the reader holds no semicolon, the [mimeType]
    [fileToBase64] returns is the start of the answer up to and with its
    first colon (the empty string when it holds no colon either). *)
Theorem fileToBase64_without_semicolon (s : AppState) (file : File) (result : jsstring) :
  occurrences semicolon result = 0 ->
  env (ReadAsDataURL file) = Resolved result ->
  completion (run env (fileToBase64 file) s) =
  Returned (mkImageAsset result (firstn (Z.to_nat (indexOf colon result + 1)) result)).
Proof.
  intros Hs Hr. unfold fileToBase64. simpl. rewrite Hr. simpl.
  rewrite (indexOf_absent semicolon result Hs).
  rewrite substring_negative_end; [reflexivity|].
  destruct (indexOf_bounds colon result) as [H|[-> H]].
  - lia.
  - simpl. lia.
Qed.

(** A rejected read is thrown as it is. *)
Lemma fileToBase64_rejected (s : AppState) (file : File) (e : Thrown) :
  env (ReadAsDataURL file) = Rejected e ->
  run env (fileToBase64 file) s = mkRun s [Called (ReadAsDataURL file)] (Uncaught e).
Proof. intros Hr. unfold fileToBase64. simpl. rewrite Hr. reflexivity. Qed.

(** [fileToBase64] makes the one call of the reader and sets nothing. *)
Lemma fileToBase64_frame (s : AppState) (file : File) :
  final (run env (fileToBase64 file) s) = s /\
  trace (run env (fileToBase64 file) s) = [Called (ReadAsDataURL file)].
Proof.
  unfold fileToBase64. simpl. destruct (env (ReadAsDataURL file)); split; reflexivity.
Qed.

(** X3: A response that is not [ok]: [urlToDataUrl] throws an [Error] that
    names the URL, and neither the body nor a file is read. *)
Theorem urlToDataUrl_not_ok (s : AppState) (url : jsstring) (response : Response) :
  env (Fetch url) = Resolved response -> ok response = false ->
  run env (urlToDataUrl url) s =
  mkRun s [Called (Fetch url)]
        (Uncaught (ErrorInstance (lit "Failed to fetch image from " ++ url))).
Proof.
  intros Hr Hok. unfold urlToDataUrl. simpl. rewrite Hr. simpl. rewrite Hok. reflexivity.
Qed.

(** X4: The requests of [urlToDataUrl], in order: the fetch; the body, only of
    an [ok] response; the read of the file made of the body, named
    "initial-image.jpeg" and typed as the body, only when the body came.
    The store is never touched. *)
Theorem urlToDataUrl_requests (s : AppState) (url : jsstring) :
  final (run env (urlToDataUrl url) s) = s /\
  (trace (run env (urlToDataUrl url) s) = [Called (Fetch url)] \/
   exists response,
     env (Fetch url) = Resolved response /\ ok response = true /\
     (trace (run env (urlToDataUrl url) s)
        = [Called (Fetch url); Called (ResponseBlob response)] \/
      exists blob,
        env (ResponseBlob response) = Resolved blob /\
        trace (run env (urlToDataUrl url) s)
          = [Called (Fetch url); Called (ResponseBlob response);
             Called (ReadAsDataURL
                       (mkFile (lit "initial-image.jpeg") (blob_type blob) (blob_bytes blob)))])).
Proof.
  unfold urlToDataUrl, fileToBase64. simpl.
  destruct (env (Fetch url)) as [response|e] eqn:Hf; simpl.
  - destruct (ok response) eqn:Hok; simpl.
    + destruct (env (ResponseBlob response)) as [blob|e] eqn:Hb; simpl.
      * split.
        -- destruct (env (ReadAsDataURL _)); reflexivity.
        -- right. exists response. repeat split; trivial.
           right. exists blob. split; [exact Hb|].
           destruct (env (ReadAsDataURL _)); reflexivity.
      * split; [reflexivity|]. right. exists response. repeat split; trivial.
        left. reflexivity.
    + split; [reflexivity|left; reflexivity].
  - split; [reflexivity|left; reflexivity].
Qed.

(** X5: The whole chain works: [urlToDataUrl] returns the data URL the reader
    built, with the MIME type read off that URL. *)
Theorem urlToDataUrl_fulfilled (s : AppState) (url : jsstring) (response : Response)
    (blob : Blob) (mime payload : jsstring) :
  env (Fetch url) = Resolved response -> ok response = true ->
  env (ResponseBlob response) = Resolved blob ->
  env (ReadAsDataURL (mkFile (lit "initial-image.jpeg") (blob_type blob) (blob_bytes blob)))
    = Resolved (base64DataUrl mime payload) ->
  occurrences semicolon mime = 0 ->
  completion (run env (urlToDataUrl url) s)
    = Returned (mkImageAsset (base64DataUrl mime payload) mime).
Proof.
  intros Hf Hok Hb Hr Hm. unfold urlToDataUrl, fileToBase64. simpl.
  rewrite Hf. simpl. rewrite Hok. simpl. rewrite Hb. simpl. rewrite Hr. simpl.
  do 2 f_equal.
  change (base64DataUrl mime payload)
    with (lit "data" ++ colon :: mime ++ semicolon :: (lit "base64," ++ payload)).
  apply mimeType_between_colon_and_semicolon; (reflexivity || assumption).
Qed.

End HelperRuns.

(* ===================================================================== *)
(** ** Outcomes of the workflows *)
(* ===================================================================== *)

Section Outcomes.

Variable env : Env.

(** The store after the initial load, by the completion of
    [urlToDataUrl]. *)
Lemma loadInitialImage_cases (s : AppState) :
  match completion (run env (urlToDataUrl initialImageUrl) s) with
  | Returned image =>
      final (run env loadInitialImage s)
      = mkAppState (Some image) (editedImage s) (prompt s) (aspectRatio s) false None
  | Uncaught _ =>
      final (run env loadInitialImage s)
      = mkAppState (originalImage s) (editedImage s) (prompt s) (aspectRatio s) false
          (Some (lit "Could not load the initial example image. Please try uploading your own."))
  end.
Proof.
  unfold loadInitialImage, urlToDataUrl, fileToBase64. simpl.
  destruct (env (Fetch initialImageUrl)) as [response|e]; simpl; [|reflexivity].
  destruct (ok response); simpl; [|reflexivity].
  destruct (env (ResponseBlob response)) as [blob|e]; simpl; [|reflexivity].
  destruct (env (ReadAsDataURL _)) as [result|e]; reflexivity.
Qed.

(** With nothing else at work, [run_among] is [run]. *)
Lemma run_among_alone {R : Type} (t : Task R) (s : AppState) :
  run_among env nothing_else t s = run env t s.
Proof.
  revert s; induction t as [r|e|c k IH|q k IH]; intros s; simpl.
  - reflexivity.
  - reflexivity.
  - now rewrite IH.
  - change (nothing_else q s) with s. now rewrite IH.
Qed.

(** X6: The initial load among other handlers. Let [r] be the run of
    [urlToDataUrl] from the store the load has prepared (error cleared,
    [isLoading] raised); its final store is the one the last promise of the
    load resumed in. If [urlToDataUrl] returned an image, the load ends with
    that image as original image and [isLoading] false, the other cells as
    in that store; if it threw, at whichever step, the load ends with the
    fixed message as error and [isLoading] false, the other cells as in
    that store. With nothing else at work the other cells are those the
    load started from, the error being [null] on success. *)
Theorem loadInitialImage_outcome (others : Interference) (s : AppState) :
  let r := run_among env others (urlToDataUrl initialImageUrl)
             (mkAppState (originalImage s) (editedImage s) (prompt s) (aspectRatio s)
                         true None) in
  final (run_among env others loadInitialImage s)
  = match completion r with
    | Returned image =>
        mkAppState (Some image) (editedImage (final r)) (prompt (final r))
                   (aspectRatio (final r)) false (error (final r))
    | Uncaught _ =>
        mkAppState (originalImage (final r)) (editedImage (final r)) (prompt (final r))
                   (aspectRatio (final r)) false
                   (Some (lit "Could not load the initial example image. Please try uploading your own."))
    end /\
  final (run env loadInitialImage s)
  = match completion (run env (urlToDataUrl initialImageUrl) s) with
    | Returned image =>
        mkAppState (Some image) (editedImage s) (prompt s) (aspectRatio s) false None
    | Uncaught _ =>
        mkAppState (originalImage s) (editedImage s) (prompt s) (aspectRatio s) false
          (Some (lit "Could not load the initial example image. Please try uploading your own."))
    end.
Proof.
  cbv zeta. split.
  - unfold loadInitialImage, urlToDataUrl, fileToBase64. simpl.
    destruct (env (Fetch initialImageUrl)) as [response|e]; simpl; [|reflexivity].
    destruct (ok response); simpl; [|reflexivity].
    destruct (env (ResponseBlob response)) as [blob|e]; simpl; [|reflexivity].
    destruct (env (ReadAsDataURL _)) as [result|e]; reflexivity.
  - pose proof (loadInitialImage_cases s) as H.
    destruct (completion (run env (urlToDataUrl initialImageUrl) s)); exact H.
Qed.

(** X7: An upload whose read is rejected, among other handlers. After its
    first setters the upload is suspended on the read; let [s'] be the
    store other handlers left when the read settled. The upload ends with
    "Failed to read the image file." as error, whatever was thrown, and
    [isLoading] false, and it writes nothing else: the original image, the
    edited image, the prompt and the aspect ratio are those of [s']. With
    nothing else at work, the original image is the one from before the
    upload and the edited image is [null]. *)
Theorem upload_failure_outcome (others : Interference) (s : AppState)
    (event : ChangeEvent) (file : File) (e : Thrown) :
  selectedFile event = Some file ->
  env (ReadAsDataURL file) = Rejected e ->
  let s' := others (ReadAsDataURL file)
              (mkAppState (originalImage s) None (prompt s) (aspectRatio s) true None) in
  final (run_among env others (handleImageUpload event) s)
  = mkAppState (originalImage s') (editedImage s') (prompt s') (aspectRatio s') false
      (Some (lit "Failed to read the image file.")) /\
  final (run env (handleImageUpload event) s)
  = mkAppState (originalImage s) None (prompt s) (aspectRatio s) false
      (Some (lit "Failed to read the image file.")).
Proof.
  intros Hf He. cbv zeta. split.
  - rewrite (handleImageUpload_selected event Hf). unfold fileToBase64. simpl.
    rewrite He. reflexivity.
  - rewrite (run_handleImageUpload_selected env s event Hf).
    cbv zeta. rewrite He. reflexivity.
Qed.

(** The store after the upload of a file read as a base64 data URL. *)
Lemma run_upload_data_url (s : AppState) (event : ChangeEvent) (file : File)
    (mime payload : jsstring) :
  selectedFile event = Some file ->
  env (ReadAsDataURL file) = Resolved (base64DataUrl mime payload) ->
  occurrences semicolon mime = 0 ->
  final (run env (handleImageUpload event) s)
  = mkAppState (Some (mkImageAsset (base64DataUrl mime payload) mime)) None
      (prompt s) (aspectRatio s) false None.
Proof.
  intros Hf Hr Hm. rewrite (run_handleImageUpload_selected env s event Hf).
  cbv zeta. rewrite Hr. simpl. do 3 f_equal.
  change (base64DataUrl mime payload)
    with (lit "data" ++ colon :: mime ++ semicolon :: (lit "base64," ++ payload)).
  apply mimeType_between_colon_and_semicolon; (reflexivity || assumption).
Qed.

(** X8: An upload whose read gives the data URL of [payload] with the
    type [mime], among other handlers. Let [s'] be the store other handlers
    left when the read settled. The upload ends with that data URL and
    [mime] as original image and [isLoading] false, and it writes nothing
    else: the edited image, the error, the prompt and the aspect ratio are
    those of [s']. With nothing else at work, the edited image and the
    error are [null]. *)
Theorem upload_success_outcome (others : Interference) (s : AppState)
    (event : ChangeEvent) (file : File) (mime payload : jsstring) :
  selectedFile event = Some file ->
  env (ReadAsDataURL file) = Resolved (base64DataUrl mime payload) ->
  occurrences semicolon mime = 0 ->
  let s' := others (ReadAsDataURL file)
              (mkAppState (originalImage s) None (prompt s) (aspectRatio s) true None) in
  final (run_among env others (handleImageUpload event) s)
  = mkAppState (Some (mkImageAsset (base64DataUrl mime payload) mime))
      (editedImage s') (prompt s') (aspectRatio s') false (error s') /\
  final (run env (handleImageUpload event) s)
  = mkAppState (Some (mkImageAsset (base64DataUrl mime payload) mime)) None
      (prompt s) (aspectRatio s) false None.
Proof.
  intros Hf Hr Hm. cbv zeta.
  assert (Hmime :
    substring (base64DataUrl mime payload)
      (indexOf colon (base64DataUrl mime payload) + 1)
      (indexOf semicolon (base64DataUrl mime payload)) = mime).
  { change (base64DataUrl mime payload)
      with (lit "data" ++ colon :: mime ++ semicolon :: (lit "base64," ++ payload)).
    apply mimeType_between_colon_and_semicolon; (reflexivity || assumption). }
  split.
  - rewrite (handleImageUpload_selected event Hf). unfold fileToBase64. simpl.
    rewrite Hr. simpl. do 3 f_equal. exact Hmime.
  - rewrite (run_handleImageUpload_selected env s event Hf).
    cbv zeta. rewrite Hr. simpl. do 3 f_equal. exact Hmime.
Qed.

(** X9: A generation past the guard, among other handlers. After its first
    setters the generation is suspended on the call of the Generation
    Client; let [s'] be the store other handlers left when the call
    settled. If the client answered [b], the generation ends with
    "data:image/png;base64," followed by [b] as edited image, and the error
    of [s']; if the call failed, it ends with "Generation failed: " and the
    text of the failure as error, and the edited image of [s']. In both
    cases [isLoading] is false and the original image, the prompt and the
    aspect ratio are those of [s']. With nothing else at work, the answer
    comes with no error and the failure with no edited image. *)
Theorem generate_outcome (others : Interference) (s : AppState) (image : ImageAsset) :
  originalImage s = Some image -> prompt s <> [] ->
  let q := EditImageWithPrompt (base64Data image) (mimeType image)
             (finalPrompt (prompt s) (aspectRatio s)) in
  let s' := others q (mkAppState (originalImage s) None (prompt s) (aspectRatio s)
                                 true None) in
  final (run_among env others (handleGenerate s) s)
  = match env q with
    | Resolved b =>
        mkAppState (originalImage s') (Some (lit "data:image/png;base64," ++ b))
                   (prompt s') (aspectRatio s') false (error s')
    | Rejected e =>
        mkAppState (originalImage s') (editedImage s') (prompt s') (aspectRatio s') false
                   (Some (lit "Generation failed: " ++ errorMessage e))
    end /\
  final (run env (handleGenerate s) s)
  = match env q with
    | Resolved b =>
        mkAppState (originalImage s) (Some (lit "data:image/png;base64," ++ b))
                   (prompt s) (aspectRatio s) false None
    | Rejected e =>
        mkAppState (originalImage s) None (prompt s) (aspectRatio s) false
                   (Some (lit "Generation failed: " ++ errorMessage e))
    end.
Proof.
  intros Himg Hp. cbv zeta. split.
  - rewrite (@handleGenerate_valid s image Himg Hp). simpl.
    destruct (env _) as [b|e]; reflexivity.
  - rewrite (run_handleGenerate_valid env s Himg Hp). cbv zeta.
    destruct (env _) as [b|e]; rewrite Himg; reflexivity.
Qed.

(** X10: A generation past the guard makes one request and no other, on success
    and on failure: nothing is tried again. *)
Theorem generate_single_request (s : AppState) (image : ImageAsset) :
  originalImage s = Some image -> prompt s <> [] ->
  exists before after,
    trace (run env (handleGenerate s) s)
    = List.map Did before
      ++ Called (EditImageWithPrompt (base64Data image) (mimeType image)
                   (finalPrompt (prompt s) (aspectRatio s)))
      :: List.map Did after.
Proof.
  intros Himg Hp. rewrite (run_handleGenerate_valid env s Himg Hp). cbv zeta.
  exists [SetIsLoading true; SetError None; SetEditedImage None].
  destruct (env _) as [b|e].
  - exists [SetEditedImage (Some (lit "data:image/png;base64," ++ b)); SetIsLoading false].
    reflexivity.
  - exists [SetError (Some (lit "Generation failed: " ++ errorMessage e));
            ConsoleError None e; SetIsLoading false].
    reflexivity.
Qed.

End Outcomes.

Section Composition.

Lemma after_first_found (sep : N) (pre rest : jsstring) :
  occurrences sep pre = 0 -> after_first sep (pre ++ sep :: rest) = Some rest.
Proof.
  induction pre as [|c pre IH]; simpl.
  - now rewrite N.eqb_refl.
  - destruct (N.eqb c sep); simpl; [discriminate|exact IH].
Qed.

(** The payload [split(',')[1]] takes from the data URL of a comma-free
    [payload] with a comma-free [mime] is [payload]. *)
Lemma base64Data_of_data_url (mime payload : jsstring) :
  occurrences comma mime = 0 -> occurrences comma payload = 0 ->
  base64Data (mkImageAsset (base64DataUrl mime payload) mime) = Some payload.
Proof.
  intros Hm Hp. unfold base64Data. simpl dataUrl. rewrite split_second.
  unfold base64DataUrl.
  replace (lit "data:" ++ mime ++ lit ";base64," ++ payload)
    with ((lit "data:" ++ mime ++ lit ";base64") ++ comma :: payload)
    by (rewrite <- !app_assoc; reflexivity).
  rewrite after_first_found.
  - simpl. now rewrite up_to_none.
  - rewrite !occurrences_app, Hm. reflexivity.
Qed.

(** X11: Upload, then generate: after the upload of a file the reader turns
    into the data URL of [payload] with the type [mime], a click on
    Generate calls the Generation Client with exactly [payload], [mime] and
    the final prompt. *)
Theorem upload_then_generate (env : Env) (s : AppState) (event : ChangeEvent)
    (file : File) (mime payload : jsstring) :
  selectedFile event = Some file ->
  env (ReadAsDataURL file) = Resolved (base64DataUrl mime payload) ->
  occurrences semicolon mime = 0 -> occurrences comma mime = 0 ->
  occurrences comma payload = 0 ->
  prompt s <> [] ->
  snd (until_await (handleGenerate (final (run env (handleImageUpload event) s)))
         (final (run env (handleImageUpload event) s)))
  = Awaiting (EditImageWithPrompt (Some payload) mime
                (finalPrompt (prompt s) (aspectRatio s))).
Proof.
  intros Hf Hr Hsemi Hcm Hcp Hp.
  rewrite (run_upload_data_url env s event file mime payload Hf Hr Hsemi).
  rewrite (@handleGenerate_valid _ (mkImageAsset (base64DataUrl mime payload) mime));
    [|reflexivity|exact Hp].
  simpl. now rewrite base64Data_of_data_url.
Qed.

Lemma trimStart_blank (p : jsstring) :
  forallb is_white_space p = true -> trimStart p = [].
Proof.
  induction p as [|c p IH]; simpl; [reflexivity|].
  destruct (is_white_space c); simpl; [exact IH|discriminate].
Qed.

(** X12: The guard tests for the empty string only. A prompt of white space
    alone passes it and the Generation Client is called: with the prompt as
    it is for "original", with the clause after a single space, and nothing
    of the prompt, for another ratio. *)
Theorem blank_prompt_is_sent (env : Env) (s : AppState) (image : ImageAsset) :
  originalImage s = Some image -> prompt s <> [] ->
  forallb is_white_space (prompt s) = true ->
  sent_prompts (trace (run env (handleGenerate s) s))
  = [if eqb (aspectRatio s) (lit "original")
     then prompt s
     else lit " Please ensure the final image composition is suitable for a "
          ++ aspectRatio s ++ lit " aspect ratio."].
Proof.
  intros Himg Hp Hblank. rewrite (sent_prompts_valid env s image Himg Hp).
  unfold finalPrompt, trim, trimEnd.
  rewrite (trimStart_blank _ Hblank). simpl.
  destruct (eqb (aspectRatio s) (lit "original")); reflexivity.
Qed.

End Composition.

(* ===================================================================== *)
(** ** Sessions: what every reachable store looks like *)
(* ===================================================================== *)

Section Sessions.

Lemma generateDisabled_false (s : AppState) :
  generateDisabled s = false ->
  isLoading s = false /\ (exists image, originalImage s = Some image) /\ prompt s <> [].
Proof.
  unfold generateDisabled. intros H.
  apply orb_false_elim in H as [H Hp]. apply orb_false_elim in H as [Hl Hi].
  split; [exact Hl|]. split.
  - destruct (originalImage s) as [image|]; [now exists image|discriminate].
  - now apply is_empty_false.
Qed.

(** The store after one event, by event. *)
Lemma step_cases (s : AppState) (env : Env) (ev : UIEvent) :
  step s (env, ev) = s \/
  (exists v, step s (env, ev) = apply_cmd (SetPrompt v) s) \/
  (exists key, In key aspectOptions /\ step s (env, ev) = apply_cmd (SetAspectRatio key) s) \/
  (exists image,
      step s (env, ev)
      = mkAppState (Some image) (editedImage s) (prompt s) (aspectRatio s) false None) \/
  step s (env, ev)
    = mkAppState (originalImage s) (editedImage s) (prompt s) (aspectRatio s) false
        (Some (lit "Could not load the initial example image. Please try uploading your own.")) \/
  (exists image,
      step s (env, ev) = mkAppState (Some image) None (prompt s) (aspectRatio s) false None) \/
  step s (env, ev)
    = mkAppState (originalImage s) None (prompt s) (aspectRatio s) false
        (Some (lit "Failed to read the image file.")) \/
  (exists b,
      step s (env, ev)
      = mkAppState (originalImage s) (Some (lit "data:image/png;base64," ++ b))
          (prompt s) (aspectRatio s) false None) \/
  (exists m,
      step s (env, ev)
      = mkAppState (originalImage s) None (prompt s) (aspectRatio s) false
          (Some (lit "Generation failed: " ++ m))).
Proof.
  unfold step. simpl fst. simpl snd. destruct ev as [|event| |value|index]; simpl handle.
  - pose proof (loadInitialImage_cases env s) as H.
    destruct (completion (run env (urlToDataUrl initialImageUrl) s)) as [image|e].
    + do 3 right. left. now exists image.
    + do 4 right. left. exact H.
  - destruct (selectedFile event) as [file|] eqn:Hf.
    + rewrite (run_handleImageUpload_selected env s event Hf). cbv zeta.
      destruct (env (ReadAsDataURL file)) as [result|e].
      * do 5 right. left. eexists. reflexivity.
      * do 6 right. left. reflexivity.
    + left. now rewrite (handleImageUpload_no_file event Hf).
  - destruct (generateDisabled s) eqn:Hd; [left; reflexivity|].
    apply generateDisabled_false in Hd as (_ & [image Himg] & Hp).
    rewrite (run_handleGenerate_valid env s Himg Hp). cbv zeta.
    destruct (env _) as [b|e]; simpl; rewrite <- Himg.
    + do 7 right. left. now exists b.
    + do 8 right. now exists (errorMessage e).
  - right. left. now exists value.
  - destruct (nth_error aspectOptions index) as [key|] eqn:Hk.
    + do 2 right. left. exists key. split; [|reflexivity].
      exact (nth_error_In _ _ Hk).
    + left. reflexivity.
Qed.

Lemma step_well_formed (s : AppState) (ev : Env * UIEvent) :
  well_formed s -> well_formed (step s ev).
Proof.
  destruct ev as [env ev]. intros (Ha & He & Hv).
  destruct (step_cases s env ev)
    as [H|[[v H]|[[key [Hk H]]|[[image H]|[H|[[image H]|[H|[[b H]|[m H]]]]]]]]];
    rewrite H; unfold well_formed; simpl; repeat split; trivial;
    try (unfold lit; simpl; discriminate).
  now exists b.
Qed.

Lemma step_no_validation_error (s : AppState) (ev : Env * UIEvent) :
  error s <> Some (lit "Please upload an image and provide a prompt.") ->
  error (step s ev) <> Some (lit "Please upload an image and provide a prompt.").
Proof.
  destruct ev as [env ev]. intros He.
  destruct (step_cases s env ev)
    as [H|[[v H]|[[key [Hk H]]|[[image H]|[H|[[image H]|[H|[[b H]|[m H]]]]]]]]];
    rewrite H; simpl; trivial; discriminate.
Qed.

Lemma fold_step_invariant (P : AppState -> Prop) :
  (forall s ev, P s -> P (step s ev)) ->
  forall evs s, P s -> P (fold_left step evs s).
Proof.
  intros Hstep evs. induction evs as [|ev evs IH]; intros s Hs; simpl; auto.
Qed.

Lemma initialState_well_formed : well_formed initialState.
Proof. unfold well_formed. simpl. repeat split. now left. Qed.

Lemma session_well_formed (evs : list (Env * UIEvent)) : well_formed (session evs).
Proof.
  unfold session. apply fold_step_invariant.
  - apply step_well_formed.
  - apply initialState_well_formed.
Qed.

(** X13: In every session the aspect ratio in the store is one of the four keys
    of [aspectOptions], and exactly one aspect-ratio button is
    highlighted. *)
Theorem session_aspect_ratio (evs : list (Env * UIEvent)) :
  In (aspectRatio (session evs)) aspectOptions /\
  List.length (filter snd (aspect_buttons (render (session evs)))) = 1.
Proof.
  destruct (session_well_formed evs) as (Ha & _).
  split; [exact Ha|]. unfold render. simpl aspect_buttons.
  simpl in Ha. destruct Ha as [<-|[<-|[<-|[<-|[]]]]]; reflexivity.
Qed.

(** X14: In every session a stored error is never the empty string: the banner
    shows exactly the error of the store. *)
Theorem session_error_is_shown (evs : list (Env * UIEvent)) :
  error_banner (render (session evs)) = error (session evs).
Proof.
  destruct (session_well_formed evs) as (_ & He & _).
  unfold render. simpl. destruct (error (session evs)) as [m|]; [|reflexivity].
  simpl in *. destruct m; [congruence|reflexivity].
Qed.

(** What one event does to the edited image: nothing, or it clears it, or
    the event is a click on Generate and the edited image is the PNG data
    URL of the answer to the call the click made. *)
Lemma step_edited_image (s : AppState) (env : Env) (ev : UIEvent) :
  editedImage (step s (env, ev)) = editedImage s \/
  editedImage (step s (env, ev)) = None \/
  (ev = ClickGenerate /\
   exists image b,
     originalImage s = Some image /\
     env (EditImageWithPrompt (base64Data image) (mimeType image)
            (finalPrompt (prompt s) (aspectRatio s))) = Resolved b /\
     editedImage (step s (env, ev)) = Some (lit "data:image/png;base64," ++ b)).
Proof.
  unfold step. simpl fst. simpl snd. destruct ev as [|event| |value|index]; simpl handle.
  - pose proof (loadInitialImage_cases env s) as H.
    destruct (completion (run env (urlToDataUrl initialImageUrl) s));
      rewrite H; left; reflexivity.
  - destruct (selectedFile event) as [file|] eqn:Hf.
    + rewrite (run_handleImageUpload_selected env s event Hf). cbv zeta.
      destruct (env (ReadAsDataURL file)); right; left; reflexivity.
    + left. now rewrite (handleImageUpload_no_file event Hf).
  - destruct (generateDisabled s) eqn:Hd; [left; reflexivity|].
    apply generateDisabled_false in Hd as (_ & [image Himg] & Hp).
    rewrite (run_handleGenerate_valid env s Himg Hp). cbv zeta.
    destruct (env _) as [b|e] eqn:Hb.
    + right. right. split; [reflexivity|]. exists image, b. repeat split; trivial.
    + right. left. reflexivity.
  - left. reflexivity.
  - destruct (nth_error aspectOptions index); left; reflexivity.
Qed.

Lemma session_snoc (evs : list (Env * UIEvent)) (ev : Env * UIEvent) :
  session (evs ++ [ev]) = step (session evs) ev.
Proof. unfold session. now rewrite fold_left_app. Qed.

Lemma generated_in_snoc (evs : list (Env * UIEvent)) (ev : Env * UIEvent) (url : jsstring) :
  generated_in evs url -> generated_in (evs ++ [ev]) url.
Proof.
  intros (before & env & after & image & b & -> & Himg & Hb & ->).
  exists before, env, (after ++ [ev]), image, b. repeat split; trivial.
  now rewrite <- app_assoc.
Qed.

Lemma session_edited_from (evs : list (Env * UIEvent)) :
  edited_from evs (editedImage (session evs)).
Proof.
  induction evs as [|[env ev] evs IH] using rev_ind; [exact I|].
  rewrite session_snoc.
  destruct (step_edited_image (session evs) env ev)
    as [H|[H|(-> & image & b & Himg & Hb & H)]]; rewrite H.
  - destruct (editedImage (session evs)) as [url|]; [|exact I].
    apply generated_in_snoc. exact IH.
  - exact I.
  - exists evs, env, [], image, b. repeat split; trivial.
Qed.

(** X15: In every session a stored edited image was generated in that
    session: it is "data:image/png;base64," followed by the answer the
    Generation Client gave to the call made by one of the clicks on
    Generate of the session. The download link, named "edited-image.png",
    is there exactly when an edited image is stored, and points to it. *)
Theorem session_edited_image (evs : list (Env * UIEvent)) :
  edited_from evs (editedImage (session evs)) /\
  download_link (render (session evs))
  = option_map (fun url => (url, lit "edited-image.png")) (editedImage (session evs)).
Proof.
  pose proof (session_edited_from evs) as Hv.
  split; [exact Hv|]. unfold render. simpl.
  destruct (editedImage (session evs)) as [url|]; [|reflexivity].
  destruct Hv as (before & env & after & image & b & _ & _ & _ & ->). reflexivity.
Qed.

(** X16: In no session is the error of the guard of [handleGenerate] stored:
    the button is disabled whenever the guard would fail. *)
Theorem session_never_validation_error (evs : list (Env * UIEvent)) :
  error (session evs) <> Some (lit "Please upload an image and provide a prompt.").
Proof.
  unfold session.
  apply (fold_step_invariant
           (fun s => error s <> Some (lit "Please upload an image and provide a prompt."))).
  - apply step_no_validation_error.
  - discriminate.
Qed.

End Sessions.

Section Commands.

Ltac each_command H :=
  simpl in H;
  repeat (destruct H as [H|H];
          [inversion H; subst; clear H; simpl; trivial;
           try (unfold lit; simpl; discriminate)
          |]);
  try contradiction.

Lemma cmd_safe_keeps_well_formed (c : Cmd) (s : AppState) :
  cmd_safe c -> well_formed s -> well_formed (apply_cmd c s).
Proof.
  intros Hc (Ha & He & Hv). destruct c; simpl in *; unfold well_formed; simpl; auto.
Qed.

(** X17: Whatever the store of the render a handler was made in, and whatever
    the environment answers, every command the handler issues keeps the
    store well formed, in whichever store it lands: the shape of the store
    does not depend on the order in which workflows in flight are served. *)
Theorem commands_keep_well_formed (env : Env) (ev : UIEvent) (closure s : AppState)
    (c : Cmd) (store : AppState) :
  In (Did c) (trace (run env (handle ev closure) s)) ->
  well_formed store -> well_formed (apply_cmd c store).
Proof.
  intros Hin. apply cmd_safe_keeps_well_formed. revert Hin.
  destruct ev as [|event| |value|index]; simpl handle.
  - unfold loadInitialImage, urlToDataUrl, fileToBase64. simpl.
    destruct (env (Fetch initialImageUrl)) as [response|e]; simpl.
    + destruct (ok response); simpl.
      * destruct (env (ResponseBlob response)) as [blob|e]; simpl.
        -- destruct (env (ReadAsDataURL _)) as [result|e]; simpl;
             intros H; each_command H.
        -- intros H; each_command H.
      * intros H; each_command H.
    + intros H; each_command H.
  - destruct (selectedFile event) as [file|] eqn:Hf.
    + rewrite (run_handleImageUpload_selected env s event Hf). cbv zeta.
      destruct (env (ReadAsDataURL file)) as [result|e]; intros H; each_command H.
    + rewrite (handleImageUpload_no_file event Hf). intros H; each_command H.
  - destruct (generateDisabled closure) eqn:Hd; [intros H; each_command H|].
    apply generateDisabled_false in Hd as (_ & [image Himg] & Hp).
    rewrite (@handleGenerate_valid closure image Himg Hp). simpl.
    destruct (env _) as [b|e]; simpl; intros H; each_command H.
    now exists b.
  - intros H; each_command H.
  - destruct (nth_error aspectOptions index) as [key|] eqn:Hk; intros H; each_command H.
    exact (nth_error_In _ _ Hk).
Qed.

End Commands.

(* ===================================================================== *)
(** ** What the page shows *)
(* ===================================================================== *)

Section Views.

(** X18: The page at the moment a workflow suspends on its first promise,
    that is, in the store its first setters leave, before any other handler
    has run: the Generate button is disabled and reads "Generating...". For
    an upload and for a generation there is, besides, no error banner and
    no download link at that moment, and the box of the edited image shows
    the spinner "Generating new background...", for an upload too. *)
Theorem view_while_waiting (s : AppState) :
  (generate_disabled (render (fst (until_await loadInitialImage s))) = true /\
   generate_label (render (fst (until_await loadInitialImage s))) = lit "Generating...") /\
  (forall event file,
     selectedFile event = Some file ->
     render (fst (until_await (handleImageUpload event) s))
     = mkView true (lit "Generating...") None
         (match originalImage s with
          | Some image => OriginalPicture (dataUrl image)
          | None => OriginalSpinner
          end)
         None
         (EditedSpinner (lit "Generating new background..."))
         (aspect_buttons (render s))) /\
  (forall image,
     originalImage s = Some image -> prompt s <> [] ->
     render (fst (until_await (handleGenerate s) s))
     = mkView true (lit "Generating...") None
         (OriginalPicture (dataUrl image)) None
         (EditedSpinner (lit "Generating new background..."))
         (aspect_buttons (render s))).
Proof.
  split; [split; reflexivity|]. split.
  - intros event file Hf. rewrite (handleImageUpload_selected event Hf).
    unfold render. simpl. destruct (originalImage s); reflexivity.
  - intros image Himg Hp. rewrite (@handleGenerate_valid s image Himg Hp).
    unfold render. simpl. rewrite Himg. reflexivity.
Qed.

Lemma view_while_waiting_witness :
  (selectedFile (mkChangeEvent (Some [pngFile])) = Some pngFile /\
   originalImage (readyState pngImage (lit "1:1")) = Some pngImage /\
   prompt (readyState pngImage (lit "1:1")) <> []) /\
  edited_panel (render (readyState pngImage (lit "1:1")))
    = EditedPicture (lit "data:image/png;base64,b2xk") /\
  edited_panel (render (fst (until_await (handleImageUpload (mkChangeEvent (Some [pngFile])))
                               (readyState pngImage (lit "1:1")))))
    = EditedSpinner (lit "Generating new background...") /\
  generate_disabled (render (fst (until_await (handleGenerate (readyState pngImage (lit "1:1")))
                                    (readyState pngImage (lit "1:1")))))
    = true.
Proof.
  split; [split; [reflexivity|split; [reflexivity|discriminate]]|].
  split; [reflexivity|]. split.
  - rewrite (proj1 (proj2 (view_while_waiting (readyState pngImage (lit "1:1"))))
               (mkChangeEvent (Some [pngFile])) pngFile eq_refl).
    reflexivity.
  - rewrite (proj2 (proj2 (view_while_waiting (readyState pngImage (lit "1:1"))))
               pngImage eq_refl).
    + reflexivity.
    + discriminate.
Defined.

(** X19: After an initial load that failed at any step, on a page that had no
    image, the page shows the fixed message in the banner and "Upload an
    image to start" in the box of the original image, and the Generate
    button, back to "Generate Image", stays disabled. *)
Theorem view_after_failed_load (env : Env) (s : AppState) (e : Thrown) :
  originalImage s = None ->
  completion (run env (urlToDataUrl initialImageUrl) s) = Uncaught e ->
  generate_disabled (render (final (run env loadInitialImage s))) = true /\
  generate_label (render (final (run env loadInitialImage s))) = lit "Generate Image" /\
  error_banner (render (final (run env loadInitialImage s)))
    = Some (lit "Could not load the initial example image. Please try uploading your own.") /\
  original_panel (render (final (run env loadInitialImage s)))
    = OriginalHint (lit "Upload an image to start").
Proof.
  intros Hnone Hfail. pose proof (loadInitialImage_cases env s) as H.
  rewrite Hfail in H. rewrite H, Hnone. repeat split.
Qed.

End Views.

(* ===================================================================== *)
(** ** The theorems at work *)
(* ===================================================================== *)

Lemma fileToBase64_reads_mime_type_witness :
  (occurrences colon (lit "data") = 0 /\ occurrences semicolon (lit "data") = 0 /\
   occurrences semicolon (lit "image/jpeg") = 0) /\
  completion (run env_fulfilled (fileToBase64 pngFile) initialState)
  = Returned (mkImageAsset (lit "data:image/jpeg;base64,/9j/") (lit "image/jpeg")).
Proof.
  split; [repeat split|].
  rewrite (fileToBase64_reads_mime_type env_fulfilled initialState pngFile
             (lit "data") (lit "image/jpeg") (lit "base64,/9j/")
             eq_refl eq_refl eq_refl eq_refl).
  reflexivity.
Defined.

Lemma fileToBase64_without_semicolon_witness :
  occurrences semicolon (lit "data:") = 0 /\
  completion (run env_empty_file (fileToBase64 pngFile) initialState)
  = Returned (mkImageAsset (lit "data:") (lit "data:")).
Proof.
  split; [reflexivity|].
  rewrite (fileToBase64_without_semicolon env_empty_file initialState pngFile
             (lit "data:") eq_refl eq_refl).
  reflexivity.
Defined.

Lemma urlToDataUrl_not_ok_witness :
  ok (mkResponse false) = false /\
  completion (run env_not_ok (urlToDataUrl initialImageUrl) initialState)
  = Uncaught (ErrorInstance
                (lit "Failed to fetch image from https://i.imgur.com/gK6nJ4P.jpeg")).
Proof.
  split; [reflexivity|].
  rewrite (urlToDataUrl_not_ok env_not_ok initialState initialImageUrl (mkResponse false)
             eq_refl eq_refl).
  reflexivity.
Defined.

Lemma urlToDataUrl_fulfilled_witness :
  (ok (mkResponse true) = true /\ occurrences semicolon (lit "image/jpeg") = 0) /\
  completion (run env_fulfilled (urlToDataUrl initialImageUrl) initialState)
  = Returned (mkImageAsset (lit "data:image/jpeg;base64,/9j/") (lit "image/jpeg")).
Proof.
  split; [split; reflexivity|].
  rewrite (urlToDataUrl_fulfilled env_fulfilled initialState initialImageUrl
             (mkResponse true) (mkBlob (lit "image/jpeg") [255; 216; 255]%N)
             (lit "image/jpeg") (lit "/9j/") eq_refl eq_refl eq_refl eq_refl eq_refl).
  reflexivity.
Defined.

Lemma upload_failure_outcome_witness :
  (selectedFile (mkChangeEvent (Some [pngFile])) = Some pngFile /\
   env_rejected (ReadAsDataURL pngFile) = Rejected (OtherValue (lit "[object ProgressEvent]"))) /\
  final (run_among env_rejected meanwhile_generation_answered
           (handleImageUpload (mkChangeEvent (Some [pngFile])))
           (readyState pngImage (lit "1:1")))
  = mkAppState (Some pngImage) (Some (lit "data:image/png;base64,Zm9v"))
      (lit "  a marble countertop ") (lit "1:1") false
      (Some (lit "Failed to read the image file.")) /\
  final (run env_rejected (handleImageUpload (mkChangeEvent (Some [pngFile])))
           (readyState pngImage (lit "1:1")))
  = mkAppState (Some pngImage) None (lit "  a marble countertop ") (lit "1:1") false
      (Some (lit "Failed to read the image file.")).
Proof.
  split; [split; reflexivity|].
  exact (upload_failure_outcome env_rejected meanwhile_generation_answered
           (readyState pngImage (lit "1:1")) (mkChangeEvent (Some [pngFile])) pngFile
           (OtherValue (lit "[object ProgressEvent]")) eq_refl eq_refl).
Defined.

Lemma upload_success_outcome_witness :
  (selectedFile (mkChangeEvent (Some [pngFile])) = Some pngFile /\
   env_fulfilled (ReadAsDataURL pngFile)
   = Resolved (base64DataUrl (lit "image/jpeg") (lit "/9j/")) /\
   occurrences semicolon (lit "image/jpeg") = 0) /\
  final (run_among env_fulfilled meanwhile_failed_upload
           (handleImageUpload (mkChangeEvent (Some [pngFile])))
           (readyState pngImage (lit "1:1")))
  = mkAppState (Some (mkImageAsset (lit "data:image/jpeg;base64,/9j/") (lit "image/jpeg")))
      None (lit "  a marble countertop ") (lit "1:1") false
      (Some (lit "Failed to read the image file.")) /\
  final (run env_fulfilled (handleImageUpload (mkChangeEvent (Some [pngFile])))
           (readyState pngImage (lit "1:1")))
  = mkAppState (Some (mkImageAsset (lit "data:image/jpeg;base64,/9j/") (lit "image/jpeg")))
      None (lit "  a marble countertop ") (lit "1:1") false None.
Proof.
  split; [repeat split|].
  exact (upload_success_outcome env_fulfilled meanwhile_failed_upload
           (readyState pngImage (lit "1:1")) (mkChangeEvent (Some [pngFile])) pngFile
           (lit "image/jpeg") (lit "/9j/") eq_refl eq_refl eq_refl).
Defined.

Lemma generate_outcome_witness :
  (originalImage (readyState pngImage (lit "original")) = Some pngImage /\
   prompt (readyState pngImage (lit "original")) <> []) /\
  final (run_among env_fulfilled meanwhile_failed_upload
           (handleGenerate (readyState pngImage (lit "original")))
           (readyState pngImage (lit "original")))
  = mkAppState (Some pngImage) (Some (lit "data:image/png;base64,Zm9v"))
      (lit "  a marble countertop ") (lit "original") false
      (Some (lit "Failed to read the image file.")) /\
  final (run env_fulfilled (handleGenerate (readyState pngImage (lit "original")))
           (readyState pngImage (lit "original")))
  = mkAppState (Some pngImage) (Some (lit "data:image/png;base64,Zm9v"))
      (lit "  a marble countertop ") (lit "original") false None.
Proof.
  assert (Hp : prompt (readyState pngImage (lit "original")) <> []) by discriminate.
  split; [split; [reflexivity|exact Hp]|].
  exact (generate_outcome env_fulfilled meanwhile_failed_upload
           (readyState pngImage (lit "original")) pngImage eq_refl Hp).
Defined.

Lemma generate_single_request_witness :
  (originalImage (readyState pngImage (lit "9:16")) = Some pngImage /\
   prompt (readyState pngImage (lit "9:16")) <> []) /\
  exists before after,
    trace (run env_rejected (handleGenerate (readyState pngImage (lit "9:16")))
             (readyState pngImage (lit "9:16")))
    = List.map Did before
      ++ Called (EditImageWithPrompt (base64Data pngImage) (mimeType pngImage)
                   (finalPrompt (prompt (readyState pngImage (lit "9:16")))
                                (aspectRatio (readyState pngImage (lit "9:16")))))
      :: List.map Did after.
Proof.
  split; [split; [reflexivity|discriminate]|].
  refine (generate_single_request env_rejected (readyState pngImage (lit "9:16"))
            pngImage eq_refl _).
  discriminate.
Defined.

Lemma upload_then_generate_witness :
  (selectedFile (mkChangeEvent (Some [pngFile])) = Some pngFile /\
   occurrences semicolon (lit "image/jpeg") = 0 /\
   occurrences comma (lit "image/jpeg") = 0 /\ occurrences comma (lit "/9j/") = 0 /\
   prompt (readyState pngImage (lit "original")) <> []) /\
  snd (until_await
         (handleGenerate
            (final (run env_fulfilled (handleImageUpload (mkChangeEvent (Some [pngFile])))
                      (readyState pngImage (lit "original")))))
         (final (run env_fulfilled (handleImageUpload (mkChangeEvent (Some [pngFile])))
                   (readyState pngImage (lit "original")))))
  = Awaiting (EditImageWithPrompt (Some (lit "/9j/")) (lit "image/jpeg")
                (lit "  a marble countertop ")).
Proof.
  split; [repeat split; discriminate|].
  rewrite (upload_then_generate env_fulfilled (readyState pngImage (lit "original"))
             (mkChangeEvent (Some [pngFile])) pngFile (lit "image/jpeg") (lit "/9j/")
             eq_refl eq_refl eq_refl eq_refl eq_refl);
    [reflexivity|discriminate].
Defined.

Lemma blank_prompt_is_sent_witness :
  (prompt (mkAppState (Some pngImage) None (lit "  ") (lit "4:5") false None) <> [] /\
   forallb is_white_space (lit "  ") = true) /\
  sent_prompts
    (trace (run env_fulfilled
              (handleGenerate (mkAppState (Some pngImage) None (lit "  ") (lit "4:5") false None))
              (mkAppState (Some pngImage) None (lit "  ") (lit "4:5") false None)))
  = [lit " Please ensure the final image composition is suitable for a 4:5 aspect ratio."].
Proof.
  split; [split; [discriminate|reflexivity]|].
  rewrite (blank_prompt_is_sent env_fulfilled
             (mkAppState (Some pngImage) None (lit "  ") (lit "4:5") false None)
             pngImage eq_refl);
    [reflexivity|discriminate|reflexivity].
Defined.

Lemma commands_keep_well_formed_witness :
  (In (Did (SetEditedImage (Some (lit "data:image/png;base64,Zm9v"))))
      (trace (run env_fulfilled (handle ClickGenerate (readyState pngImage (lit "1:1")))
                initialState)) /\
   well_formed initialState) /\
  well_formed (apply_cmd (SetEditedImage (Some (lit "data:image/png;base64,Zm9v")))
                 initialState).
Proof.
  assert (Hin : In (Did (SetEditedImage (Some (lit "data:image/png;base64,Zm9v"))))
                  (trace (run env_fulfilled
                            (handle ClickGenerate (readyState pngImage (lit "1:1")))
                            initialState))).
  { simpl. do 4 right. left. reflexivity. }
  split; [split; [exact Hin|exact initialState_well_formed]|].
  exact (commands_keep_well_formed env_fulfilled ClickGenerate
           (readyState pngImage (lit "1:1")) initialState _ initialState
           Hin initialState_well_formed).
Defined.

Lemma view_after_failed_load_witness :
  (originalImage initialState = None /\
   completion (run env_rejected (urlToDataUrl initialImageUrl) initialState)
   = Uncaught (ErrorInstance (lit "Failed to fetch"))) /\
  original_panel (render (final (run env_rejected loadInitialImage initialState)))
  = OriginalHint (lit "Upload an image to start").
Proof.
  split; [split; reflexivity|].
  refine (proj2 (proj2 (proj2 (view_after_failed_load env_rejected initialState
                                 (ErrorInstance (lit "Failed to fetch")) eq_refl eq_refl)))).
Defined.

(** A session: the example image cannot be fetched, the user uploads a
    file, picks "4:5" and generates. *)
Example session_upload_and_generate :
  session [(env_rejected, Mount);
           (env_fulfilled, ChangeFile (mkChangeEvent (Some [pngFile])));
           (env_fulfilled, ClickAspect 3);
           (env_fulfilled, ClickGenerate)]
  = mkAppState (Some (mkImageAsset (lit "data:image/jpeg;base64,/9j/") (lit "image/jpeg")))
               (Some (lit "data:image/png;base64,Zm9v"))
               defaultPrompt (lit "4:5") false None.
Proof. vm_compute. reflexivity. Qed.

(** A click on Generate before any image is there does nothing. *)
Example session_click_too_early :
  session [(env_rejected, Mount); (env_fulfilled, ClickGenerate)]
  = session [(env_rejected, Mount)].
Proof. vm_compute. reflexivity. Qed.
